(** * splitbench: the log-retrieval orchestrator and the report parser

    A shallow embedding of [src/splitbrain_diskspd_k8s/cli.py] and
    [src/parse_results.py].

    Text is modelled as [string] over code points below 256.  The Python
    standard library is modelled by the functions of [Text] (str methods),
    [Re] (the fragment of the [re] syntax the parser uses, with Python's
    backtracking order), [Num] (int and float conversions and formatting)
    and [Dict] (insertion-ordered dicts).

    The control plane ([kubectl], run as a child process) is an oracle
    threaded through an abstract world state.  The orchestrator's files are
    a finite map from paths to texts; the parser reads directory listings
    and file texts that may raise, and writes a finite map from paths to CSV
    files.  Directories, console output and the progress display are not
    part of the model. *)

From Stdlib Require Import String Ascii List ZArith Lia Bool.
From Stdlib Require Import DecimalString DecimalZ DecimalPos.
From stdpp Require Import gmap strings.

Import ListNotations.
Open Scope string_scope.

(* ================================================================== *)
(** * Part I: definitions                                              *)
(* ================================================================== *)

(** ** Python [str] methods *)
Module Text.

Definition code (c : ascii) : nat := nat_of_ascii c.

(** [str.isdigit] on one character, which is also the class [\d]. *)
Definition is_digit (c : ascii) : bool :=
  (48 <=? code c)%nat && (code c <=? 57)%nat.

(** [str.isspace] on one character, which is also the class [\s]:
    TAB..CR, FS..US, space, NEL and NBSP. *)
Definition is_space (c : ascii) : bool :=
  let n := code c in
  ((9 <=? n)%nat && (n <=? 13)%nat) || ((28 <=? n)%nat && (n <=? 32)%nat)
  || (n =? 133)%nat || (n =? 160)%nat.

Definition newline : ascii := ascii_of_nat 10.

(** [s.startswith(p)], returning the remainder of [s] after [p]. *)
Fixpoint strip_prefix (p s : string) : option string :=
  match p with
  | EmptyString => Some s
  | String a p' =>
      match s with
      | String b s' => if Ascii.eqb a b then strip_prefix p' s' else None
      | EmptyString => None
      end
  end.

Definition startswith (s p : string) : bool :=
  match strip_prefix p s with Some _ => true | None => false end.

Fixpoint rev_acc (s acc : string) : string :=
  match s with
  | EmptyString => acc
  | String c s' => rev_acc s' (String c acc)
  end.

Definition rev (s : string) : string := rev_acc s EmptyString.

Definition endswith (s p : string) : bool := startswith (rev s) (rev p).

(** [s.lstrip()], [s.rstrip()] and [s.strip()]. *)
Fixpoint lstrip (s : string) : string :=
  match s with
  | String c s' => if is_space c then lstrip s' else s
  | EmptyString => EmptyString
  end.

Definition rstrip (s : string) : string := rev (lstrip (rev s)).

Definition strip (s : string) : string := rstrip (lstrip s).

(** The first element of [s.split("\n")]. *)
Fixpoint first_line (s : string) : string :=
  match s with
  | String c s' =>
      if Ascii.eqb c newline then EmptyString else String c (first_line s')
  | EmptyString => EmptyString
  end.

(** [s.replace(old, new)] for a non-empty [old]: non-overlapping
    occurrences, leftmost first.  [skip] counts the characters of the
    occurrence being replaced that are still to be dropped. *)
Fixpoint replace_go (old new : string) (skip : nat) (s : string) : string :=
  match s with
  | EmptyString => EmptyString
  | String c s' =>
      match skip with
      | S n => replace_go old new n s'
      | O =>
          match strip_prefix old s with
          | Some _ => new +:+ replace_go old new (Nat.pred (String.length old)) s'
          | None => String c (replace_go old new O s')
          end
      end
  end.

Definition replace (s old new : string) : string := replace_go old new O s.

(** [s.lower()] on one character: A..Z and the Latin-1 capitals. *)
Definition lower_char (c : ascii) : ascii :=
  let n := code c in
  if ((65 <=? n)%nat && (n <=? 90)%nat)
     || ((192 <=? n)%nat && (n <=? 222)%nat && negb (n =? 215)%nat)
  then ascii_of_nat (n + 32) else c.

Fixpoint lower (s : string) : string :=
  match s with
  | EmptyString => EmptyString
  | String c s' => String (lower_char c) (lower s')
  end.

(** The last character of a string, if any. *)
Fixpoint last_char (s : string) : option ascii :=
  match s with
  | EmptyString => None
  | String c EmptyString => Some c
  | String _ s' => last_char s'
  end.

(** The text between the start of [s] and the start of its suffix [s']. *)
Definition consumed (s s' : string) : string :=
  substring 0 (String.length s - String.length s') s.


(** [sep.join(parts)]. *)
Fixpoint join (sep : string) (parts : list string) : string :=
  match parts with
  | [] => EmptyString
  | [p] => p
  | p :: rest => p +:+ sep +:+ join sep rest
  end.
End Text.

(** ** The fragment of Python's [re] the parser uses *)
Module Re.
Import Text.

(** One-character classes. *)
Inductive cclass : Type :=
  | CChar (c : ascii)        (* a literal character *)
  | CDigit                   (* \d *)
  | CSpace                   (* \s *)
  | CDot                     (* .  without DOTALL: anything but newline *)
  | CAny                     (* .  under DOTALL *)
  | CUnion (a b : cclass).   (* [ab] *)

Fixpoint class_mem (cl : cclass) (c : ascii) : bool :=
  match cl with
  | CChar a => Ascii.eqb a c
  | CDigit => is_digit c
  | CSpace => is_space c
  | CDot => negb (Ascii.eqb c newline)
  | CAny => true
  | CUnion a b => class_mem a c || class_mem b c
  end.

(** Patterns.  Repetition is only ever applied to a one-character class in
    the program's patterns; groups carry their number. *)
Inductive regex : Type :=
  | RLit (l : string)             (* literal text *)
  | ROne (cl : cclass)            (* one character of a class *)
  | RStar (cl : cclass)           (* cl*   greedy *)
  | RLazy (cl : cclass)           (* cl*?  lazy *)
  | RPlus (cl : cclass)           (* cl+   greedy *)
  | RSeq (r1 r2 : regex)
  | RAlt (r1 r2 : regex)
  | RGroup (n : nat) (r : regex). (* the n-th capturing group *)

Definition captures : Type := list (nat * string).

Section Matcher.
Context {A : Type}.

(** Greedy repetition: take as many characters as possible, give back one
    at a time while the continuation fails. *)
Fixpoint star_greedy (cl : cclass) (s : string) (k : string -> option A)
  : option A :=
  match s with
  | String c s' =>
      if class_mem cl c then
        match star_greedy cl s' k with
        | Some x => Some x
        | None => k s
        end
      else k s
  | EmptyString => k s
  end.

(** Lazy repetition: try the continuation first, take one more character
    each time it fails. *)
Fixpoint star_lazy (cl : cclass) (s : string) (k : string -> option A)
  : option A :=
  match k s with
  | Some x => Some x
  | None =>
      match s with
      | String c s' => if class_mem cl c then star_lazy cl s' k else None
      | EmptyString => None
      end
  end.

(** The backtracking matcher, in continuation-passing style: [k] receives
    the unread suffix and the groups bound so far. *)
Fixpoint rmatch (r : regex) (s : string) (g : captures)
         (k : string -> captures -> option A) : option A :=
  match r with
  | RLit l =>
      match strip_prefix l s with
      | Some s' => k s' g
      | None => None
      end
  | ROne cl =>
      match s with
      | String c s' => if class_mem cl c then k s' g else None
      | EmptyString => None
      end
  | RStar cl => star_greedy cl s (fun s' => k s' g)
  | RLazy cl => star_lazy cl s (fun s' => k s' g)
  | RPlus cl =>
      match s with
      | String c s' =>
          if class_mem cl c then star_greedy cl s' (fun s'' => k s'' g)
          else None
      | EmptyString => None
      end
  | RSeq r1 r2 => rmatch r1 s g (fun s' g' => rmatch r2 s' g' k)
  | RAlt r1 r2 =>
      match rmatch r1 s g k with
      | Some x => Some x
      | None => rmatch r2 s g k
      end
  | RGroup n r1 =>
      rmatch r1 s g (fun s' g' => k s' ((n, consumed s s') :: g'))
  end.
End Matcher.

(** A match object: the matched text (group 0) and the bound groups. *)
Record re_match : Type := MkMatch { whole : string; groups : captures }.

Definition match_at (r : regex) (s : string) : option re_match :=
  rmatch r s [] (fun s' g => Some (MkMatch (consumed s s') g)).

(** [re.search(r, s)]: the match at the leftmost position that has one. *)
Fixpoint search (r : regex) (s : string) : option re_match :=
  match match_at r s with
  | Some m => Some m
  | None =>
      match s with
      | String _ s' => search r s'
      | EmptyString => None
      end
  end.

Fixpoint lookup_group (n : nat) (g : captures) : option string :=
  match g with
  | [] => None
  | (i, v) :: g' => if Nat.eqb i n then Some v else lookup_group n g'
  end.

(** [m.group(n)] for a group that took part in the match, as every group
    that the parser reads does ([binds] below). *)
Definition group (m : re_match) (n : nat) : string :=
  match lookup_group n (groups m) with
  | Some v => v
  | None => EmptyString
  end.

(** Sequencing of several patterns. *)
Fixpoint rseq (rs : list regex) : regex :=
  match rs with
  | [] => RLit EmptyString
  | [r] => r
  | r :: rs' => RSeq r (rseq rs')
  end.

(** *** The language of a pattern *)

(** Every character of [w] is in the class. *)
Fixpoint all_in (cl : cclass) (w : string) : bool :=
  match w with
  | EmptyString => true
  | String c w' => class_mem cl c && all_in cl w'
  end.

(** The texts a pattern matches, whatever the order in which the matcher
    tries them. *)
Fixpoint lang (r : regex) (w : string) : Prop :=
  match r with
  | RLit l => w = l
  | ROne cl => exists c, w = String c EmptyString /\ class_mem cl c = true
  | RStar cl => all_in cl w = true
  | RLazy cl => all_in cl w = true
  | RPlus cl => w <> EmptyString /\ all_in cl w = true
  | RSeq r1 r2 => exists w1 w2, w = w1 +:+ w2 /\ lang r1 w1 /\ lang r2 w2
  | RAlt r1 r2 => lang r1 w \/ lang r2 w
  | RGroup _ r1 => lang r1 w
  end.

(** The number of occurrences of [c] in [s]. *)
Fixpoint count_char (c : ascii) (s : string) : nat :=
  match s with
  | EmptyString => 0
  | String a s' => (if Ascii.eqb a c then 1 else 0) + count_char c s'
  end.

(** The number of occurrences of [c] in [s] that directly follow a
    character of the class [cl]; [prev] tells whether the character before
    [s] is in the class. *)
Fixpoint count_after (cl : cclass) (c : ascii) (prev : bool) (s : string)
  : nat :=
  match s with
  | EmptyString => 0
  | String a s' =>
      (if prev && Ascii.eqb a c then 1 else 0)
      + count_after cl c (class_mem cl a) s'
  end.


(** The groups bound by every match of a pattern. *)
Fixpoint binds (n : nat) (r : regex) : bool :=
  match r with
  | RSeq r1 r2 => binds n r1 || binds n r2
  | RAlt r1 r2 => binds n r1 && binds n r2
  | RGroup i r1 => Nat.eqb i n || binds n r1
  | _ => false
  end.

(** The texts that group [n] of a pattern can capture. *)
Fixpoint group_lang (n : nat) (r : regex) (v : string) : Prop :=
  match r with
  | RSeq r1 r2 => group_lang n r1 v \/ group_lang n r2 v
  | RAlt r1 r2 => group_lang n r1 v \/ group_lang n r2 v
  | RGroup i r1 => (i = n /\ lang r1 v) \/ group_lang n r1 v
  | _ => False
  end.

(** Every bound group satisfies [Q]. *)
Definition groups_in (Q : nat -> string -> Prop) (g : captures) : Prop :=
  forall n v, lookup_group n g = Some v -> Q n v.

(** [g'] binds what [g] binds, and the groups that [r] always binds. *)
Definition binds_more (r : regex) (g g' : captures) : Prop :=
  forall n, binds n r = true \/ lookup_group n g <> None ->
            lookup_group n g' <> None.


(** A non-empty text of digits and dots, as the pattern for a number
    captures it. *)
Definition is_number (v : string) : Prop :=
  v <> EmptyString /\ all_in (CUnion CDigit (CChar ".")) v = true.

(** A non-empty text of digits. *)
Definition is_digits (v : string) : Prop :=
  v <> EmptyString /\ all_in CDigit v = true.

(** The text [s] is empty or starts with a character outside the class. *)
Definition stops (cl : cclass) (s : string) : Prop :=
  match s with
  | EmptyString => True
  | String c _ => class_mem cl c = false
  end.
End Re.

(** ** Exceptions *)
Module Py.

Inductive exn : Type :=
  | OverflowError
  | ValueError
  | KeyError (key : string)
  | OSError (cause : string).

(** The outcome of a call that may raise. *)
Inductive py (A : Type) : Type :=
  | Return (a : A)
  | Raise (e : exn).
Arguments Return {A} a.
Arguments Raise {A} e.

Definition bind {A B : Type} (c : py A) (k : A -> py B) : py B :=
  match c with
  | Return a => k a
  | Raise e => Raise e
  end.

End Py.

Notation "x <- c ;; k" := (Py.bind c (fun x => k))
  (at level 100, c at next level, right associativity).

(** ** Python numbers: [int(...)], [str(...)], [/] and [:.2f] *)
Module Num.
Import Text Py.
Local Open Scope Z_scope.

(** The number that a string of ASCII digits denotes in base ten. *)
Fixpoint int_go (acc : Z) (s : string) : Z :=
  match s with
  | EmptyString => acc
  | String c s' => int_go (acc * 10 + (Z.of_nat (code c) - 48)) s'
  end.

Definition int_of_digits (s : string) : Z := int_go 0 s.

(** The interpreter's bound on the number of digits of a text that [int]
    converts ([sys.int_info.default_max_str_digits]). *)
Definition max_str_digits : nat := 4300.

(** [int(s)] for a non-empty string of ASCII digits, which is what the
    patterns capture: [ValueError] for a string of more digits than the
    bound, leading zeros included, and the number it denotes otherwise. *)
Definition int (s : string) : py Z :=
  if (max_str_digits <? String.length s)%nat then Raise ValueError
  else Return (int_of_digits s).

(** [str(n)] for an int. *)
Definition str_of_int (n : Z) : string :=
  NilZero.string_of_int (Z.to_int n).

(** A finite non-negative double, kept exactly as [mant / 2^expo]. *)
Record float : Type := MkFloat { mant : Z; expo : Z }.

(** Rounding of a non-negative integer to 53 significant bits, ties to
    even: the integer nearest to [n] that a double represents. *)
Definition round53 (n : Z) : Z :=
  let bits := Z.log2 n + 1 in
  if bits <=? 53 then n
  else
    let sh := bits - 53 in
    let q := Z.shiftr n sh in
    let r := n mod 2 ^ sh in
    let half := 2 ^ (sh - 1) in
    let q' := if (half <? r) || ((r =? half) && Z.odd q) then q + 1 else q in
    Z.shiftl q' sh.

(** [n / (1024 * 1024 * 1024)] for an int [n >= 0]: true division is
    correctly rounded, and raises [OverflowError] when the quotient does not
    fit a double. *)
Definition div_gib (n : Z) : py float :=
  let m := round53 n in
  if 2 ^ 1054 <=? m then Raise OverflowError else Return (MkFloat m 30).

(** Two-digit decimal, zero padded. *)
Definition two_digits (n : Z) : string :=
  if n <? 10 then "0" +:+ str_of_int n else str_of_int n.

(** [f"{x:.2f}"]: the decimal nearest to the exact value of [x] with two
    fractional digits, ties to even. *)
Definition format_2f (x : float) : string :=
  let num := mant x * 100 in
  let den := 2 ^ expo x in
  let q := num / den in
  let r := num mod den in
  let h := if (den <? 2 * r) || ((2 * r =? den) && Z.odd q) then q + 1 else q in
  str_of_int (h / 100) +:+ "." +:+ two_digits (h mod 100).

End Num.

(** ** Python [dict] with string keys and values: insertion ordered *)
Module Dict.

Definition dict : Type := list (string * string).

Fixpoint get (k : string) (d : dict) : option string :=
  match d with
  | [] => None
  | (k', v) :: d' => if String.eqb k' k then Some v else get k d'
  end.

(** [d[k] = v]: an existing key keeps its place, a new key goes last. *)
Fixpoint set (k v : string) (d : dict) : dict :=
  match d with
  | [] => [(k, v)]
  | (k', v') :: d' =>
      if String.eqb k' k then (k', v) :: d' else (k', v') :: set k v d'
  end.

(** [d.update(d2)]. *)
Definition update (d d2 : dict) : dict :=
  fold_left (fun acc kv => set (fst kv) (snd kv) acc) d2 d.

(** [list(d.keys())]. *)
Definition keys (d : dict) : list string := map fst d.

(** [k in d]. *)
Definition mem (k : string) (d : dict) : bool :=
  match get k d with Some _ => true | None => false end.

(** [k] is one of the keys [ks]. *)
Definition has_key (ks : list string) (k : string) : bool :=
  existsb (fun key => String.eqb key k) ks.

(** The first of two optional values that is present. *)
Definition or_else (a b : option string) : option string :=
  match a with Some v => Some v | None => b end.

End Dict.

(** ** [parse_results.py] *)
Module ParseResults.
Import Text Re Py Num Dict.

(** *** The patterns of the report grammar *)

Definition digits : regex := RPlus CDigit.                        (* \d+ *)
Definition number : regex := RPlus (CUnion CDigit (CChar ".")).   (* [\d.]+ *)
Definition spaces : regex := RPlus CSpace.                        (* \s+ *)
Definition bar : regex := RLit "|".                               (* \| *)

(** The literal "Command Line: ", then group 1: the rest of the line. *)
Definition command_line_re : regex :=
  rseq [RLit "Command Line: "; RGroup 1 (RStar CDot)].

(** The literal "processor count: " then group 1: digits; the literal
    "caching options: " then group 1: the rest of the line. *)
Definition processor_count_re : regex :=
  rseq [RLit "processor count: "; RGroup 1 digits].
Definition caching_options_re : regex :=
  rseq [RLit "caching options: "; RGroup 1 (RStar CDot)].

(** The six patterns of [parse_input_parameters]. *)
Definition duration_re : regex :=
  rseq [RLit "duration: "; RGroup 1 digits; RLit "s"].
Definition block_size_re : regex :=
  rseq [RLit "block size: "; RGroup 1 digits].
Definition outstanding_io_re : regex :=
  rseq [RLit "number of outstanding I/O operations: "; RGroup 1 digits].
Definition threads_re : regex :=
  rseq [RLit "total threads: "; RGroup 1 digits].
Definition file_size_re : regex :=
  rseq [RLit "size: "; RGroup 1 digits; RLit "B"].
Definition io_type_re : regex :=
  rseq [RLit "using "; RGroup 1 (RAlt (RLit "random") (RLit "sequential"));
        RLit " I/O"].

(** The pattern
    "CPU\s+\|\s+Usage.*?avg:\s+([\d.]+)%\s+\|\s+([\d.]+)%\s+\|\s+([\d.]+)%\s+\|\s+([\d.]+)%\s+\|\s+([\d.]+)%"
    under DOTALL. *)
Definition cpu_re : regex :=
  rseq [RLit "CPU"; spaces; bar; spaces; RLit "Usage"; RLazy CAny;
        RLit "avg:"; spaces; RGroup 1 number; RLit "%";
        spaces; bar; spaces; RGroup 2 number; RLit "%";
        spaces; bar; spaces; RGroup 3 number; RLit "%";
        spaces; bar; spaces; RGroup 4 number; RLit "%";
        spaces; bar; spaces; RGroup 5 number; RLit "%"].

(** The pattern
    "{io_type} IO.*?total:\s+([\d]+)\s+\|\s+([\d]+)\s+\|\s+([\d.]+)\s+\|\s+([\d.]+)\s+\|\s+([\d.]+)\s+\|"
    under DOTALL; [io_type] is one of Total, Read and Write, which hold no
    pattern syntax. *)
Definition io_re (io_type : string) : regex :=
  rseq [RLit io_type; RLit " IO"; RLazy CAny; RLit "total:";
        spaces; RGroup 1 digits; spaces; bar;
        spaces; RGroup 2 digits; spaces; bar;
        spaces; RGroup 3 number; spaces; bar;
        spaces; RGroup 4 number; spaces; bar;
        spaces; RGroup 5 number; spaces; bar].

(** The pattern "%-ile.*?max \|.*?\n" under DOTALL. *)
Definition latency_section_re : regex :=
  rseq [RLit "%-ile"; RLazy CAny; RLit "max |"; RLazy CAny;
        ROne (CChar newline)].

(** The pattern "{percentile}\s+\|\s+([\d.]+)\s+\|". *)
Definition percentile_re (percentile : string) : regex :=
  rseq [RLit percentile; spaces; bar; spaces; RGroup 1 number; spaces; bar].

(** The percentage values of a text: its percent signs that directly
    follow a digit or a dot. *)
Definition percentages (content : string) : nat :=
  count_after (CUnion CDigit (CChar ".")) "%" false content.

(** *** The extractors *)

Definition parse_command_line (content : string) : string :=
  match search command_line_re content with
  | Some m => group m 1
  | None => "N/A"
  end.

Definition parse_system_info (content : string) : dict :=
  let processor_count := search processor_count_re content in
  let caching_options := search caching_options_re content in
  [("processor_count",
    match processor_count with Some m => group m 1 | None => "N/A" end);
   ("caching_options",
    match caching_options with Some m => group m 1 | None => "N/A" end)].

Definition parse_input_parameters (content : string) : py dict :=
  let params := [] in
  let params :=
    match search duration_re content with
    | Some m => set "duration" (group m 1) params
    | None => params
    end in
  params <-
    match search block_size_re content with
    | Some m =>
        block_size_bytes <- int (group m 1) ;;
        Return (set "block_size" (str_of_int (block_size_bytes / 1024)%Z)
                  params)
    | None => Return params
    end ;;
  let params :=
    match search outstanding_io_re content with
    | Some m => set "outstanding_io" (group m 1) params
    | None => params
    end in
  let params :=
    match search threads_re content with
    | Some m => set "threads" (group m 1) params
    | None => params
    end in
  params <-
    match search file_size_re content with
    | Some m =>
        file_size_bytes <- int (group m 1) ;;
        file_size_gb <- div_gib file_size_bytes ;;
        Return (set "file_size_gb" (format_2f file_size_gb) params)
    | None => Return params
    end ;;
  let params :=
    match search io_type_re content with
    | Some m => set "io_type" (group m 1) params
    | None => params
    end in
  Return params.

Definition parse_cpu_usage (content : string) : dict :=
  match search cpu_re content with
  | Some cpu_section =>
      [("cpu_total_usage", group cpu_section 1);
       ("cpu_user", group cpu_section 2);
       ("cpu_kernel", group cpu_section 3);
       ("cpu_io_wait", group cpu_section 4);
       ("cpu_idle", group cpu_section 5)]
  | None => []
  end.

Definition parse_io_stats (content io_type : string) : dict :=
  match search (io_re io_type) content with
  | Some io_section =>
      [(lower io_type +:+ "_bytes", group io_section 1);
       (lower io_type +:+ "_ios", group io_section 2);
       (lower io_type +:+ "_mbps", group io_section 3);
       (lower io_type +:+ "_iops", group io_section 4);
       (lower io_type +:+ "_avg_latency", group io_section 5)]
  | None => []
  end.

Definition percentile_labels : list string :=
  ["min"; "50th"; "95th"; "99th"; "max"].

(** One turn of the loop over the percentile labels. *)
Definition add_percentile (section_text : string) (percentiles : dict)
           (percentile : string) : dict :=
  match search (percentile_re percentile) section_text with
  | Some m => set ("latency_" +:+ percentile) (group m 1) percentiles
  | None => percentiles
  end.

Definition parse_latency_percentiles (content : string) : dict :=
  match search latency_section_re content with
  | Some latency_section =>
      fold_left (add_percentile (whole latency_section)) percentile_labels []
  | None => []
  end.

(** *** The field names of each extractor *)

Definition system_keys : list string := ["processor_count"; "caching_options"].

Definition input_keys : list string :=
  ["duration"; "block_size"; "outstanding_io"; "threads"; "file_size_gb";
   "io_type"].

Definition cpu_keys : list string :=
  ["cpu_total_usage"; "cpu_user"; "cpu_kernel"; "cpu_io_wait"; "cpu_idle"].

Definition io_keys (io_type : string) : list string :=
  map (fun suffix => lower io_type +:+ suffix)
    ["_bytes"; "_ios"; "_mbps"; "_iops"; "_avg_latency"].

Definition latency_keys : list string :=
  map (fun percentile => "latency_" +:+ percentile) percentile_labels.

(** *** Files *)

(** [os.path.join(a, b)]. *)
Definition path_join (a b : string) : string :=
  if startswith b "/" then b
  else if String.eqb a "" || endswith a "/" then a +:+ b
  else a +:+ "/" +:+ b.

(** What the parser sees of the file system: directory listings and the
    text of files, each of which may raise. *)
Record filesystem : Type := MkFs {
  listdir : string -> py (list string);
  read_text : string -> py string
}.

(** A written CSV file: its rows of cells, the header row first. *)
Definition csv_file : Type := list (list string).

Definition parse_result_file (fs : filesystem)
           (file_path benchmark_id node_id : string) : py dict :=
  content <- read_text fs file_path ;;
  let result := [("benchmark_id", benchmark_id); ("node_id", node_id)] in
  let result := set "command_line" (parse_command_line content) result in
  let result := update result (parse_system_info content) in
  params <- parse_input_parameters content ;;
  let result := update result params in
  let result := update result (parse_cpu_usage content) in
  let result := update result (parse_io_stats content "Total") in
  let result := update result (parse_io_stats content "Read") in
  let result := update result (parse_io_stats content "Write") in
  let result := update result (parse_latency_percentiles content) in
  Return result.

Section Layout.
(** The directory of the script. *)
Variable BASE_DIR : string.

Definition RESULTS_DIR : string := path_join BASE_DIR "results".
Definition OUTPUT_DIR : string := path_join BASE_DIR "results".
Definition VM_SIZE_DIR : string := path_join OUTPUT_DIR "Standard_D4s_v3".

(** The loop over the node files; an exception of [parse_result_file] is
    caught and the file is left out. *)
Fixpoint process_node_files (fs : filesystem) (node_files : list string)
         (all_results : list dict) : list dict :=
  match node_files with
  | [] => all_results
  | node_file :: rest =>
      let node_id := replace (replace node_file "node-" "") ".txt" "" in
      let file_path := path_join RESULTS_DIR node_file in
      match parse_result_file fs file_path "benchmark-01" node_id with
      | Return result => process_node_files fs rest (all_results ++ [result])%list
      | Raise _ => process_node_files fs rest all_results
      end
  end.

Definition process_benchmark_results (fs : filesystem) : py (list dict) :=
  names <- listdir fs RESULTS_DIR ;;
  let node_files :=
    filter (fun f => startswith f "node-" && endswith f ".txt") names in
  Return (process_node_files fs node_files []).

Definition get_block_size_dir (results : list dict) : string :=
  match results with
  | first :: _ =>
      match get "block_size" first with
      | Some block_size => block_size +:+ "K"
      | None => "unknown_block_size"
      end
  | [] => "unknown_block_size"
  end.

(** [csv.DictWriter]: a row with a key outside the header raises, a
    missing key gives an empty cell. *)
Definition csv_row (fieldnames : list string) (row : dict)
  : py (list string) :=
  if forallb (fun k => existsb (String.eqb k) fieldnames) (keys row)
  then Return (map (fun f => match get f row with
                             | Some v => v
                             | None => ""
                             end) fieldnames)
  else Raise ValueError.

Fixpoint writerows (fieldnames : list string) (rows : list dict)
         (written : csv_file) : py unit * csv_file :=
  match rows with
  | [] => (Return tt, written)
  | row :: rest =>
      match csv_row fieldnames row with
      | Return cells => writerows fieldnames rest (written ++ [cells])%list
      | Raise e => (Raise e, written)
      end
  end.

(** Open [output_file] for writing, write the header and the rows; the
    file exists, with the rows written so far, also when a row raises. *)
Definition write_csv (output_file : string) (fieldnames : list string)
           (rows : list dict) (out : gmap string csv_file)
  : py unit * gmap string csv_file :=
  let '(res, content) := writerows fieldnames rows [fieldnames] in
  (res, <[output_file := content]> out).

Definition write_summary_csv (results : list dict)
           (output_file : option string) (out : gmap string csv_file)
  : py unit * gmap string csv_file :=
  match results with
  | [] => (Return tt, out)
  | first :: _ =>
      let block_size_dir_name := get_block_size_dir results in
      let block_size_dir := path_join VM_SIZE_DIR block_size_dir_name in
      let output_file :=
        match output_file with
        | Some f => f
        | None =>
            path_join block_size_dir
              ("benchmark_summary_" +:+ block_size_dir_name +:+ ".csv")
        end in
      write_csv output_file (keys first) results out
  end.

(** [defaultdict(list)] keyed by benchmark id, insertion ordered. *)
Definition grouping : Type := list (string * list dict).

Fixpoint group_append (benchmark_id : string) (result : dict)
         (groups : grouping) : grouping :=
  match groups with
  | [] => [(benchmark_id, [result])]
  | (id, data) :: rest =>
      if String.eqb id benchmark_id then (id, (data ++ [result])%list) :: rest
      else (id, data) :: group_append benchmark_id result rest
  end.

Fixpoint group_results (results : list dict) (groups : grouping)
  : py grouping :=
  match results with
  | [] => Return groups
  | result :: rest =>
      match get "benchmark_id" result with
      | Some id => group_results rest (group_append id result groups)
      | None => Raise (KeyError "benchmark_id")
      end
  end.

Definition benchmark_csv_path (block_size_dir_name benchmark_id : string)
  : string :=
  path_join (path_join VM_SIZE_DIR block_size_dir_name)
    ("benchmark_" +:+ benchmark_id +:+ "_" +:+ block_size_dir_name +:+ ".csv").

(** The loop over the groups. *)
Fixpoint write_groups (block_size_dir_name : string) (groups : grouping)
         (out : gmap string csv_file) : py unit * gmap string csv_file :=
  match groups with
  | [] => (Return tt, out)
  | (benchmark_id, benchmark_data) :: rest =>
      match benchmark_data with
      | [] => write_groups block_size_dir_name rest out
      | first :: _ =>
          let output_file :=
            benchmark_csv_path block_size_dir_name benchmark_id in
          match write_csv output_file (keys first) benchmark_data out with
          | (Return _, out') => write_groups block_size_dir_name rest out'
          | (Raise e, out') => (Raise e, out')
          end
      end
  end.

Definition write_benchmark_specific_csvs (results : list dict)
           (out : gmap string csv_file) : py unit * gmap string csv_file :=
  match results with
  | [] => (Return tt, out)
  | _ :: _ =>
      let block_size_dir_name := get_block_size_dir results in
      match group_results results [] with
      | Return benchmark_results =>
          write_groups block_size_dir_name benchmark_results out
      | Raise e => (Raise e, out)
      end
  end.

Definition main (fs : filesystem) (out : gmap string csv_file)
  : py unit * gmap string csv_file :=
  match process_benchmark_results fs with
  | Raise e => (Raise e, out)
  | Return results =>
      match results with
      | [] => (Return tt, out)
      | _ :: _ =>
          match write_summary_csv results None out with
          | (Return _, out') => write_benchmark_specific_csvs results out'
          | (Raise e, out') => (Raise e, out')
          end
      end
  end.
End Layout.


(** The worker id that [process_benchmark_results] derives from the name of
    an artifact. *)
Definition node_id_of (node_file : string) : string :=
  replace (replace node_file "node-" "") ".txt" "".

(** The test of [process_benchmark_results] for the name of an artifact. *)
Definition is_node_file (f : string) : bool :=
  startswith f "node-" && endswith f ".txt".

(** The fields that every record holds, in the order of their insertion. *)
Definition leading_keys : list string :=
  ["benchmark_id"; "node_id"; "command_line"; "processor_count";
   "caching_options"].

(** All the fields of a record, in the order of their insertion. *)
Definition all_keys : list string :=
  (leading_keys ++ input_keys ++ cpu_keys ++ io_keys "Total"
   ++ io_keys "Read" ++ io_keys "Write" ++ latency_keys)%list.

(** The test of [csv.DictWriter] for a row: no key outside the header. *)
Definition fits (fieldnames : list string) (row : dict) : bool :=
  forallb (fun k => existsb (String.eqb k) fieldnames) (keys row).

(** The cells of a row under a header: the empty text for a missing
    field. *)
Definition row_cells (fieldnames : list string) (row : dict) : list string :=
  map (fun f => match get f row with Some v => v | None => "" end) fieldnames.

(** The path of the summary file of [write_summary_csv]. *)
Definition summary_csv_path (BASE_DIR block_size_dir_name : string) : string :=
  path_join (path_join (VM_SIZE_DIR BASE_DIR) block_size_dir_name)
    ("benchmark_summary_" +:+ block_size_dir_name +:+ ".csv").
End ParseResults.

(** ** [splitbrain_diskspd_k8s/cli.py] *)
Module Cli.
Import Text Num.

(** The outcome of [subprocess.run(argv, check=True, capture_output=True)]:
    the captured standard output, or [CalledProcessError] with the captured
    standard error. *)
Inductive completed : Type :=
  | Completed (stdout : string)
  | CalledProcessError (stderr : string).

(** How a command of the tool ends: it returns, or [typer.Exit(code)]
    unwinds it. *)
Inductive status : Type :=
  | Finished
  | Exit (code : Z).

Definition nl : string := String newline EmptyString.
Definition dquote : string := String (ascii_of_nat 34) EmptyString.

(** [Path(dir) / name], for [dir] in pathlib's normal form. *)
Definition path_div (dir name : string) : string :=
  if String.eqb dir "." then name
  else if endswith dir "/" then dir +:+ name
  else dir +:+ "/" +:+ name.

(** The artifact of worker [node_num]. *)
Definition node_file (output_dir : string) (node_num : Z) : string :=
  path_div output_dir ("node-" +:+ str_of_int node_num +:+ ".txt").

Definition temp_node_file (i : Z) : string :=
  "temp_node_" +:+ str_of_int i +:+ ".yaml".

(** [range(1, nodes + 1)]. *)
Definition node_range (nodes : Z) : list Z :=
  map Z.of_nat (seq 1 (Z.to_nat nodes)).

Section ControlPlane.
(** The cluster and everything else a child process can see or change. *)
Variable World : Type.
(** Running one child process. *)
Variable subprocess_run : list string -> World -> completed * World.
(** [read_template]: the text of a file of the template directory, which
    is taken to be readable. *)
Variable read_template : string -> string.

(** The cluster and the files of the working tree. *)
Record state : Type := MkState {
  world : World;
  files : gmap string string
}.

Definition run (argv : list string) (st : state) : completed * state :=
  let '(r, w) := subprocess_run argv (world st) in
  (r, MkState w (files st)).

(** [with open(path, "w") as f: f.write(text)]. *)
Definition write_file (path text : string) (st : state) : state :=
  MkState (world st) (<[path := text]> (files st)).

(** [os.remove(path)] of an existing file. *)
Definition remove (path : string) (st : state) : state :=
  MkState (world st) (delete path (files st)).

(** On [CalledProcessError] the command of the tool exits with code 1. *)
Definition run_kubectl_command (command : list string) (st : state)
  : (status + string) * state :=
  match run ("kubectl" :: command) st with
  | (Completed stdout, st') => (inr stdout, st')
  | (CalledProcessError _, st') => (inl (Exit 1), st')
  end.

Definition wait_for_job_completion (job_name : string)
           (timeout_seconds : Z) (st : state) : bool * state :=
  match run ["kubectl"; "wait"; "--for=condition=complete";
             "job/" +:+ job_name;
             "--timeout=" +:+ str_of_int timeout_seconds +:+ "s"] st with
  | (Completed _, st') => (true, st')
  | (CalledProcessError _, st') => (false, st')
  end.

Definition default_timeout : Z := 7200.

(** The [try] block of [capture_logs] up to the write: the text to write,
    or the standard error of the call that failed. *)
Definition label_attempt (node_num : Z) (st : state)
  : (string + string) * state :=
  let label := "node-test=node-" +:+ str_of_int node_num in
  match run ["kubectl"; "logs"; "-l"; label; "--tail=500"] st with
  | (CalledProcessError e, st1) => (inr e, st1)
  | (Completed stdout, st1) =>
      if String.eqb (strip stdout) "" then
        match run ["kubectl"; "get"; "pods"; "-l"; label; "-o"; "name"] st1
        with
        | (CalledProcessError e, st2) => (inr e, st2)
        | (Completed pod_list, st2) =>
            if negb (String.eqb (strip pod_list) "") then
              let pod_name := first_line (strip pod_list) in
              match run ["kubectl"; "logs"; pod_name; "--tail=500"] st2 with
              | (CalledProcessError e, st3) => (inr e, st3)
              | (Completed stdout', st3) => (inl stdout', st3)
              end
            else (inl stdout, st2)
        end
      else (inl stdout, st1)
  end.

Definition job_pods_argv (node_num : Z) : list string :=
  ["kubectl"; "get"; "pods";
   "--selector=job-name=diskspd-node-" +:+ str_of_int node_num;
   "-o"; "name"].

(** The handler of the first [CalledProcessError] [e]. *)
Definition job_name_fallback (node_num : Z) (output_file e : string)
           (st : state) : state :=
  let failure e2 :=
    "Failed to capture logs for node " +:+ str_of_int node_num +:+ "." +:+ nl
    +:+ "Error: " +:+ e +:+ nl +:+ "Second error: " +:+ e2 in
  match run (job_pods_argv node_num) st with
  | (CalledProcessError e2, st1) => write_file output_file (failure e2) st1
  | (Completed job_pods, st1) =>
      if negb (String.eqb (strip job_pods) "") then
        let pod_name := first_line (strip job_pods) in
        match run ["kubectl"; "logs"; pod_name] st1 with
        | (CalledProcessError e2, st2) =>
            write_file output_file (failure e2) st2
        | (Completed logs, st2) => write_file output_file logs st2
        end
      else st1
  end.

Definition capture_logs (node_num : Z) (output_dir : string) (st : state)
  : state :=
  let output_file := node_file output_dir node_num in
  match label_attempt node_num st with
  | (inl stdout, st') => write_file output_file stdout st'
  | (inr e, st') => job_name_fallback node_num output_file e st'
  end.

(** The one path of [capture_logs] that ends without a write: the label
    attempt fails and the pod query of the fallback succeeds with a blank
    answer. *)
Definition blank_job_pods (node_num : Z) (st : state) : Prop :=
  exists e st1 pods st2,
    label_attempt node_num st = (inr e, st1)
    /\ run (job_pods_argv node_num) st1 = (Completed pods, st2)
    /\ strip pods = "".

(** [single]: deploy one job, wait, fetch its logs with one request. *)
Definition single (storage_class : string) (duration : Z)
           (output_dir : string) (st : state) : status * state :=
  let output_path := output_dir in
  let template := read_template "single-node.yaml" in
  let template := replace template "default" storage_class in
  let template :=
    replace template (dquote +:+ "-d60" +:+ dquote)
      (dquote +:+ "-d" +:+ str_of_int duration +:+ dquote) in
  let st := write_file "temp_single_node.yaml" template st in
  match run_kubectl_command ["apply"; "-f"; "temp_single_node.yaml"] st with
  | (inl exit, st) => (exit, st)
  | (inr _, st) =>
      let st := remove "temp_single_node.yaml" st in
      match wait_for_job_completion "diskspd-single-node" default_timeout st
      with
      | (true, st) =>
          match run_kubectl_command
                  ["logs"; "-l"; "node-test=single-node"; "--tail=500"] st
          with
          | (inr logs, st) =>
              (Finished,
               write_file (path_div output_path "single-node.txt") logs st)
          | (inl _, st) => (Finished, st)
          end
      | (false, st) => (Finished, st)
      end
  end.

(** The manifest that [single] renders and submits. *)
Definition single_manifest (storage_class : string) (duration : Z) : string :=
  replace (replace (read_template "single-node.yaml") "default" storage_class)
    (dquote +:+ "-d60" +:+ dquote)
    (dquote +:+ "-d" +:+ str_of_int duration +:+ dquote).

(** The deployment loop of [multi] over the worker indices. *)
Fixpoint deploy_jobs (template : string) (indices : list Z) (st : state)
  : status * state :=
  match indices with
  | [] => (Finished, st)
  | i :: rest =>
      let node_template := replace template "${NODE_NUM}" (str_of_int i) in
      let st := write_file (temp_node_file i) node_template st in
      match run_kubectl_command ["apply"; "-f"; temp_node_file i] st with
      | (inl exit, st) => (exit, st)
      | (inr _, st) =>
          let st := remove (temp_node_file i) st in
          deploy_jobs template rest st
      end
  end.

Definition process_node (output_path : string) (node_num : Z) (st : state)
  : state :=
  let job_name := "diskspd-node-" +:+ str_of_int node_num in
  match wait_for_job_completion job_name default_timeout st with
  | (true, st) => capture_logs node_num output_path st
  | (false, st) => st
  end.

(** The tasks of [process_all_nodes]: none of them suspends before it
    ends, so the event loop runs them one after the other in the order of
    their creation. *)
Definition process_all_nodes (output_path : string) (nodes : Z)
           (st : state) : state :=
  fold_left (fun st i => process_node output_path i st) (node_range nodes) st.

Definition multi (nodes : Z) (storage_class : string) (duration : Z)
           (output_dir : string) (st : state) : status * state :=
  let output_path := output_dir in
  let template := read_template "multi-node.yaml" in
  let template := replace template "${STORAGE_CLASS}" storage_class in
  let template :=
    replace template (dquote +:+ "-d60" +:+ dquote)
      (dquote +:+ "-d" +:+ str_of_int duration +:+ dquote) in
  match deploy_jobs template (node_range nodes) st with
  | (Finished, st) => (Finished, process_all_nodes output_path nodes st)
  | (Exit code, st) => (Exit code, st)
  end.
End ControlPlane.

Arguments world {World} s.
Arguments files {World} s.
Arguments MkState {World} world files.

End Cli.

(** ** Sample inputs *)
Module Samples.
Import Cli.

(** A control plane that answers every request with one line of output. *)
Definition cp_ok (argv : list string) (w : unit) : completed * unit :=
  (Completed "log line", tt).

(** A control plane on which the wait for the job of worker 1 times out and
    every other request succeeds. *)
Definition cp_timeout_first (argv : list string) (w : unit)
  : completed * unit :=
  match argv with
  | [_; "wait"; _; "job/diskspd-node-1"; _] =>
      (CalledProcessError "timed out waiting for the condition", tt)
  | _ => (Completed "log line", tt)
  end.

(** A control plane that rejects every submission. *)
Definition cp_reject (argv : list string) (w : unit) : completed * unit :=
  match argv with
  | _ :: "apply" :: _ => (CalledProcessError "forbidden", tt)
  | _ => (Completed "log line", tt)
  end.

(** A control plane that rejects the submission of worker 2 and accepts
    every other request. *)
Definition cp_reject_second (argv : list string) (w : unit)
  : completed * unit :=
  match argv with
  | [_; "apply"; _; "temp_node_2.yaml"] => (CalledProcessError "forbidden", tt)
  | _ => (Completed "log line", tt)
  end.

(** A control plane on which log requests fail and pod queries find no
    pod. *)
Definition cp_no_pods (argv : list string) (w : unit) : completed * unit :=
  match argv with
  | _ :: "logs" :: _ => (CalledProcessError "not found", tt)
  | _ :: "get" :: _ => (Completed "", tt)
  | _ => (Completed "ok", tt)
  end.

Definition templates (name : string) : string :=
  "storageClassName: default; args: " +:+ dquote +:+ "-d60" +:+ dquote
  +:+ "; node: ${NODE_NUM}".

Definition st0 : state unit := MkState tt ∅.

(** Reports and results directories. *)
Import Py ParseResults.

Definition line (s : string) : string := s +:+ Cli.nl.

(** A report with a block size of 4096 bytes and a file of 10 GiB. *)
Definition report : string :=
  line "Command Line: diskspd -b4K -d60 -o32 -t4 /mnt/data/testfile"
  +:+ line "	duration: 60s"
  +:+ line "	block size: 4096"
  +:+ line "	size: 10737418240B"
  +:+ line "	using random I/O"
  +:+ line "CPU |  Usage |  User  |  Kernel |  IO Wait |   Idle"
  +:+ line "avg:    1.20% |   0.30% |    0.90% |     2.00% |  96.80%"
  +:+ line "Total IO"
  +:+ line "total:        1048576000 |       256000 |      16.67 |    4266.67 |    0.234 |"
  +:+ line "  %-ile |  Read (ms) | Write (ms) | Total (ms)"
  +:+ line "    min |      0.050 |        N/A |      0.050"
  +:+ line "   50th |      0.200 |        N/A |      0.200"
  +:+ line "    max |      9.000 |        N/A |      9.000".

(** A report whose average line has four of the five percentages. *)
Definition report_four_percentages : string :=
  line "CPU |  Usage |  User  |  Kernel |  IO Wait |   Idle"
  +:+ line "avg:    1.20% |   0.30% |    0.90% |     2.00% |".

(** The same report followed by the header of the latency table, which
    holds a percent sign of its own. *)
Definition report_four_percentages_and_latency : string :=
  report_four_percentages
  +:+ line "  %-ile |  Read (ms) | Write (ms) | Total (ms)"
  +:+ line "    min |      0.100 |        N/A |      0.100".

(** A results directory with one artifact, which holds [report]. *)
Definition fs_one : filesystem :=
  MkFs (fun _ => Return ["node-1.txt"; "notes.md"]) (fun _ => Return report).

(** A results directory with one artifact, which is empty. *)
Definition fs_blank : filesystem :=
  MkFs (fun _ => Return ["node-1.txt"]) (fun _ => Return "").

(** A results directory without artifacts. *)
Definition fs_empty : filesystem :=
  MkFs (fun _ => Return []) (fun _ => Raise (OSError "No such file")).

(** A control plane that gives the answers of a script, one for each
    request in turn, whatever the request. *)
Definition cp_scripted (argv : list string) (w : list completed)
  : completed * list completed :=
  match w with
  | answer :: rest => (answer, rest)
  | [] => (CalledProcessError "no answer left", [])
  end.

Definition scripted (answers : list completed) : state (list completed) :=
  MkState answers ∅.

(** Records: one with a block size, one without, one with a latency. *)
Definition record_a : Dict.dict :=
  [("benchmark_id", "benchmark-01"); ("node_id", "1"); ("block_size", "4")].
Definition record_b : Dict.dict :=
  [("benchmark_id", "benchmark-01"); ("node_id", "2")].
Definition record_c : Dict.dict :=
  [("benchmark_id", "benchmark-01"); ("node_id", "3"); ("latency_min", "0.1")].

Fixpoint zeros (n : nat) : string :=
  match n with
  | O => EmptyString
  | S n' => String "0" (zeros n')
  end.

(** A report that declares a block size of 4301 digits and a file of
    10 GiB. *)
Definition long_block_size_report : string :=
  "block size: 1" +:+ zeros 4300 +:+ Cli.nl +:+ "size: 10737418240B".

(** A report that declares a file of [10^320] bytes. *)
Definition huge_report : string := "size: 1" +:+ zeros 320 +:+ "B".
End Samples.

(* ================================================================== *)
(** * Part II: properties                                              *)
(* ================================================================== *)

Arguments String.append : simpl nomatch.

(** ** Facts about text *)
Module TextFacts.
Import Text.

Lemma append_nil_r (s : string) : s +:+ "" = s.
Proof. induction s as [|c s IH]; simpl; [reflexivity | now rewrite IH]. Qed.

Lemma append_assoc (a b c : string) : (a +:+ b) +:+ c = a +:+ (b +:+ c).
Proof. induction a as [|x a IH]; simpl; [reflexivity | now rewrite IH]. Qed.

Lemma length_append (a b : string) :
  String.length (a +:+ b) = String.length a + String.length b.
Proof. induction a as [|x a IH]; simpl; [reflexivity | now rewrite IH]. Qed.

Lemma append_inj_l (a x y : string) : a +:+ x = a +:+ y -> x = y.
Proof.
  induction a as [|c a IH]; simpl; [easy |].
  intros [= H]. auto.
Qed.

Lemma append_inj_r (x y a : string) : x +:+ a = y +:+ a -> x = y.
Proof.
  revert y. induction x as [|c x IH]; intros [|d y] H; simpl in H.
  - reflexivity.
  - apply (f_equal String.length) in H. simpl in H.
    rewrite length_append in H. lia.
  - apply (f_equal String.length) in H. simpl in H.
    rewrite length_append in H. lia.
  - injection H as -> H. f_equal. auto.
Qed.

Lemma last_char_append (a b : string) :
  b <> "" -> last_char (a +:+ b) = last_char b.
Proof.
  intros Hb. induction a as [|c a IH]; simpl; [reflexivity |].
  rewrite <- IH. destruct (a +:+ b) eqn:E; [| reflexivity].
  destruct a; simpl in E; [congruence | discriminate].
Qed.

Lemma to_int_not_nil (n : Z) :
  Z.to_int n <> Decimal.Pos Decimal.Nil /\ Z.to_int n <> Decimal.Neg Decimal.Nil.
Proof.
  destruct n as [|p|p]; simpl; split; try discriminate;
    intros [= H]; revert H; apply Unsigned.to_uint_nonnil.
Qed.

Lemma str_of_int_inj (n m : Z) : Num.str_of_int n = Num.str_of_int m -> n = m.
Proof.
  unfold Num.str_of_int. intros H.
  apply DecimalZ.to_int_inj.
  destruct (to_int_not_nil n) as [Hn1 Hn2], (to_int_not_nil m) as [Hm1 Hm2].
  pose proof (NilZero.isi _ Hn1 Hn2) as En.
  pose proof (NilZero.isi _ Hm1 Hm2) as Em.
  rewrite H in En. congruence.
Qed.
End TextFacts.

(** ** Facts about the matcher *)
Module ReFacts.
Import Text Re TextFacts.

Lemma strip_prefix_Some (p s s' : string) :
  strip_prefix p s = Some s' <-> s = p +:+ s'.
Proof.
  revert s. induction p as [|a p IH]; intros s; simpl.
  - split; [now intros [= ->] | now intros ->].
  - destruct s as [|b s]; [split; [discriminate | discriminate] |].
    destruct (Ascii.eqb_spec a b) as [->|Hne].
    + rewrite IH. split; [now intros -> | now intros [= ->]].
    + split; [discriminate | intros [= E _]; congruence].
Qed.

Lemma strip_prefix_append (p s : string) : strip_prefix p (p +:+ s) = Some s.
Proof. now apply strip_prefix_Some. Qed.

Lemma consumed_append (w s' : string) : consumed (w +:+ s') s' = w.
Proof.
  unfold consumed. rewrite length_append.
  replace (String.length w + String.length s' - String.length s')
    with (String.length w) by lia.
  induction w as [|c w IH]; simpl.
  - now destruct s'.
  - now rewrite IH.
Qed.

Lemma all_in_append (cl : cclass) (a b : string) :
  all_in cl (a +:+ b) = all_in cl a && all_in cl b.
Proof.
  induction a as [|c a IH]; simpl; [reflexivity |].
  rewrite IH. now rewrite andb_assoc.
Qed.

Section Continuations.
Context {A : Type}.
Implicit Types (k : string -> option A) (kg : string -> captures -> option A).

(** *** Soundness: a result comes from a text of the language *)

Lemma star_greedy_sound cl s k x :
  star_greedy cl s k = Some x ->
  exists w s', s = w +:+ s' /\ all_in cl w = true /\ k s' = Some x.
Proof.
  revert x. induction s as [|c s IH]; intros x; simpl.
  - intros H. now exists "", "".
  - destruct (class_mem cl c) eqn:Hc.
    + destruct (star_greedy cl s k) as [y|] eqn:E.
      * intros [= <-]. destruct (IH y eq_refl) as (w & s' & -> & Hw & Hk).
        exists (String c w), s'. simpl. now rewrite Hc, Hw.
      * intros H. now exists "", (String c s).
    + intros H. now exists "", (String c s).
Qed.

Lemma star_lazy_sound cl s k x :
  star_lazy cl s k = Some x ->
  exists w s', s = w +:+ s' /\ all_in cl w = true /\ k s' = Some x.
Proof.
  revert x. induction s as [|c s IH]; intros x; simpl.
  - destruct (k "") eqn:E; [intros [= <-] | discriminate]. now exists "", "".
  - destruct (k (String c s)) eqn:E.
    + intros [= <-]. now exists "", (String c s).
    + destruct (class_mem cl c) eqn:Hc; [| discriminate].
      intros H. destruct (IH x H) as (w & s' & -> & Hw & Hk).
      exists (String c w), s'. simpl. now rewrite Hc, Hw.
Qed.

Lemma rmatch_sound r s g kg x :
  rmatch r s g kg = Some x ->
  exists w s' g', s = w +:+ s' /\ lang r w /\ kg s' g' = Some x.
Proof.
  revert s g kg x. induction r as [l|cl|cl|cl|cl|r1 IH1 r2 IH2|r1 IH1 r2 IH2|n r IH];
    intros s g kg x; simpl.
  - destruct (strip_prefix l s) as [s'|] eqn:E; [| discriminate].
    apply strip_prefix_Some in E as ->. intros H. now exists l, s', g.
  - destruct s as [|c s]; [discriminate |].
    destruct (class_mem cl c) eqn:Hc; [| discriminate].
    intros H. exists (String c ""), s, g.
    split; [reflexivity |]. split; [now exists c | exact H].
  - intros H. apply star_greedy_sound in H as (w & s' & -> & Hw & Hk).
    now exists w, s', g.
  - intros H. apply star_lazy_sound in H as (w & s' & -> & Hw & Hk).
    now exists w, s', g.
  - destruct s as [|c s]; [discriminate |].
    destruct (class_mem cl c) eqn:Hc; [| discriminate].
    intros H. apply star_greedy_sound in H as (w & s' & -> & Hw & Hk).
    exists (String c w), s', g. simpl. rewrite Hc, Hw. now repeat split.
  - intros H. apply IH1 in H as (w1 & s1 & g1 & -> & L1 & H).
    apply IH2 in H as (w2 & s2 & g2 & -> & L2 & H).
    exists (w1 +:+ w2), s2, g2. rewrite append_assoc.
    split; [reflexivity |]. split; [now exists w1, w2 | exact H].
  - destruct (rmatch r1 s g kg) as [y|] eqn:E.
    + intros [= <-]. apply IH1 in E as (w & s' & g' & -> & L & H).
      exists w, s', g'. auto.
    + intros H. apply IH2 in H as (w & s' & g' & -> & L & H).
      exists w, s', g'. auto.
  - intros H. apply IH in H as (w & s' & g' & -> & L & H).
    now exists w, s', ((n, consumed (w +:+ s') s') :: g').
Qed.

(** *** Completeness: a text of the language gives a result *)

Lemma star_greedy_here cl s k : k s <> None -> star_greedy cl s k <> None.
Proof.
  intros Hk. destruct s as [|c s]; simpl; [exact Hk |].
  destruct (class_mem cl c); [| exact Hk].
  now destruct (star_greedy cl s k).
Qed.

Lemma star_greedy_complete cl w s' k :
  all_in cl w = true -> k s' <> None -> star_greedy cl (w +:+ s') k <> None.
Proof.
  intros Hw Hk. induction w as [|c w IH]; simpl.
  - now apply star_greedy_here.
  - simpl in Hw. apply andb_prop in Hw as [Hc Hw]. rewrite Hc.
    specialize (IH Hw). now destruct (star_greedy cl (w +:+ s') k).
Qed.

Lemma star_lazy_complete cl w s' k :
  all_in cl w = true -> k s' <> None -> star_lazy cl (w +:+ s') k <> None.
Proof.
  intros Hw Hk. induction w as [|c w IH]; simpl.
  - destruct s'; simpl; now destruct (k _).
  - simpl in Hw. apply andb_prop in Hw as [Hc Hw]. rewrite Hc.
    now destruct (k (String c (w +:+ s'))); [| apply IH].
Qed.

Lemma rmatch_complete r w s' g kg :
  lang r w -> (forall g', kg s' g' <> None) -> rmatch r (w +:+ s') g kg <> None.
Proof.
  revert w s' g kg.
  induction r as [l|cl|cl|cl|cl|r1 IH1 r2 IH2|r1 IH1 r2 IH2|n r IH];
    intros w s' g kg; simpl.
  - intros -> Hk. now rewrite strip_prefix_append.
  - intros (c & -> & Hc) Hk. simpl. now rewrite Hc.
  - intros Hw Hk. now apply star_greedy_complete.
  - intros Hw Hk. now apply star_lazy_complete.
  - intros [Hne Hw] Hk. destruct w as [|c w]; [easy |]. simpl in *.
    apply andb_prop in Hw as [Hc Hw]. rewrite Hc.
    now apply star_greedy_complete.
  - intros (w1 & w2 & -> & L1 & L2) Hk. rewrite append_assoc.
    apply IH1; [exact L1 |]. intros g'. now apply IH2.
  - intros [L|L] Hk.
    + specialize (IH1 w s' g kg L Hk). now destruct (rmatch r1 _ g kg).
    + destruct (rmatch r1 _ g kg); [easy |]. now apply IH2.
  - intros L Hk. apply IH; [exact L |]. intros g'. apply Hk.
Qed.
End Continuations.

(** *** Matching at a position and searching *)

Lemma match_at_Some r s m :
  match_at r s = Some m ->
  exists s', s = whole m +:+ s' /\ lang r (whole m).
Proof.
  unfold match_at. intros H.
  apply rmatch_sound in H as (w & s' & g' & -> & L & [= <-]).
  simpl. rewrite consumed_append. eauto.
Qed.

Lemma match_at_complete r w s' : lang r w -> match_at r (w +:+ s') <> None.
Proof. intros L. unfold match_at. now apply rmatch_complete. Qed.

(** A search that succeeds found a text of the language inside [s]. *)
Lemma search_Some r s m :
  search r s = Some m ->
  exists pre post, s = pre +:+ whole m +:+ post /\ lang r (whole m).
Proof.
  induction s as [|c s IH]; simpl.
  - destruct (match_at r "") as [m'|] eqn:E; [| discriminate].
    intros [= ->]. apply match_at_Some in E as (s' & E & L).
    now exists "", s'.
  - destruct (match_at r (String c s)) as [m'|] eqn:E.
    + intros [= ->]. apply match_at_Some in E as (s' & E & L).
      now exists "", s'.
    + intros H. destruct (IH H) as (pre & post & -> & L).
      now exists (String c pre), post.
Qed.

(** A search fails only when no part of [s] is in the language. *)
Lemma search_complete r pre w post :
  lang r w -> search r (pre +:+ w +:+ post) <> None.
Proof.
  intros L. induction pre as [|c pre IH]; simpl.
  - pose proof (match_at_complete r w post L) as H.
    destruct (w +:+ post); simpl; now destruct (match_at r _).
  - now destruct (match_at r _).
Qed.

Lemma search_None r s pre w post :
  search r s = None -> s = pre +:+ w +:+ post -> ~ lang r w.
Proof.
  intros H -> L. now apply (search_complete r pre w post) in L.
Qed.

(** What is found inside a part of a text is found in the text. *)
Lemma search_part r pre mid post :
  search r mid <> None -> search r (pre +:+ mid +:+ post) <> None.
Proof.
  destruct (search r mid) as [m|] eqn:E; [intros _ | easy].
  apply search_Some in E as (a & b & -> & L).
  replace (pre +:+ (a +:+ whole m +:+ b) +:+ post)
    with ((pre +:+ a) +:+ whole m +:+ (b +:+ post))
    by now rewrite !append_assoc.
  now apply search_complete.
Qed.

(** *** Counting characters *)

Lemma count_char_append c a b :
  count_char c (a +:+ b) = count_char c a + count_char c b.
Proof. induction a as [|x a IH]; simpl; [reflexivity | rewrite IH; lia]. Qed.



(** *** Counting the characters that follow a class *)







(** *** Captured groups *)

Section Captures.
Context {A : Type}.
Variable Q : nat -> string -> Prop.

Abbreviation groups_in := (Re.groups_in Q).

Lemma binds_more_refl r g : (forall n, binds n r = false) -> binds_more r g g.
Proof. intros H n [Hb|Hg]; [now rewrite H in Hb | exact Hg]. Qed.

Ltac base_case :=
  split; [reflexivity |];
  split; [| split; [eassumption |];
            split; [assumption | now apply binds_more_refl]].

(** The groups that reach the continuation: those bound before, and for
    each group of the pattern a text of the language of that group. *)
Lemma rmatch_captures r s g (kg : string -> captures -> option A) x :
  (forall n v, group_lang n r v -> Q n v) ->
  groups_in g ->
  rmatch r s g kg = Some x ->
  exists w s' g',
    s = w +:+ s' /\ lang r w /\ kg s' g' = Some x
    /\ groups_in g' /\ binds_more r g g'.
Proof.
  revert s g kg x.
  induction r as [l|cl|cl|cl|cl|r1 IH1 r2 IH2|r1 IH1 r2 IH2|i r IH];
    intros s g kg x HQ Hg; simpl.
  - destruct (strip_prefix l s) as [s'|] eqn:E; [| discriminate].
    apply strip_prefix_Some in E as ->. intros H.
    exists l, s', g. now base_case.
  - destruct s as [|c s]; [discriminate |].
    destruct (class_mem cl c) eqn:Hc; [| discriminate].
    intros H. exists (String c ""), s, g.
    base_case. now exists c.
  - intros H. apply star_greedy_sound in H as (w & s' & -> & Hw & Hk).
    exists w, s', g. now base_case.
  - intros H. apply star_lazy_sound in H as (w & s' & -> & Hw & Hk).
    exists w, s', g. now base_case.
  - destruct s as [|c s]; [discriminate |].
    destruct (class_mem cl c) eqn:Hc; [| discriminate].
    intros H. apply star_greedy_sound in H as (w & s' & -> & Hw & Hk).
    exists (String c w), s', g. simpl. rewrite Hc, Hw.
    now base_case.
  - intros H.
    apply IH1 in H as (w1 & s1 & g1 & -> & L1 & H & Hg1 & B1);
      [| intros n v Hv; apply HQ; now left | exact Hg].
    apply IH2 in H as (w2 & s2 & g2 & -> & L2 & H & Hg2 & B2);
      [| intros n v Hv; apply HQ; now right | exact Hg1].
    exists (w1 +:+ w2), s2, g2. rewrite append_assoc.
    split; [reflexivity |]. split; [now exists w1, w2 |].
    split; [exact H |]. split; [exact Hg2 |].
    intros n [Hb|Hn]; apply B2.
    + apply orb_prop in Hb as [Hb|Hb]; [right; apply B1 | left]; auto.
    + right. apply B1. auto.
  - destruct (rmatch r1 s g kg) as [y|] eqn:E.
    + intros [= <-].
      apply IH1 in E as (w & s' & g' & -> & L & H & Hg' & B);
        [| intros n v Hv; apply HQ; now left | exact Hg].
      exists w, s', g'. repeat (split; [now auto |]).
      intros n [Hb|Hn]; apply B; [left | right; exact Hn].
      now apply andb_prop in Hb as [Hb _].
    + intros H.
      apply IH2 in H as (w & s' & g' & -> & L & H & Hg' & B);
        [| intros n v Hv; apply HQ; now right | exact Hg].
      exists w, s', g'. repeat (split; [now auto |]).
      intros n [Hb|Hn]; apply B; [left | right; exact Hn].
      now apply andb_prop in Hb as [_ Hb].
  - intros H.
    apply IH in H as (w & s' & g' & -> & L & H & Hg' & B);
      [| intros n v Hv; apply HQ; now right | exact Hg].
    rewrite consumed_append in H.
    exists w, s', ((i, w) :: g').
    split; [reflexivity |]. split; [exact L |]. split; [exact H |]. split.
    + intros n v. simpl. destruct (Nat.eqb_spec i n) as [<-|Hne].
      * intros [= <-]. apply HQ. now left.
      * apply Hg'.
    + intros n Hn. simpl. destruct (Nat.eqb_spec i n) as [<-|Hne]; [easy |].
      apply B. destruct Hn as [Hb|Hn]; [left | right; exact Hn].
      apply orb_prop in Hb as [Hb|Hb]; [| exact Hb].
      now apply Nat.eqb_eq in Hb.
Qed.
End Captures.

(** A match binds every group that its pattern always binds, to a text of
    the language of that group. *)
Lemma search_groups r s m :
  search r s = Some m ->
  (forall n v, lookup_group n (groups m) = Some v -> group_lang n r v)
  /\ (forall n, binds n r = true -> lookup_group n (groups m) <> None).
Proof.
  revert m.
  assert (forall t m, match_at r t = Some m ->
            (forall n v, lookup_group n (groups m) = Some v -> group_lang n r v)
            /\ (forall n, binds n r = true -> lookup_group n (groups m) <> None))
    as At.
  { intros t m H. unfold match_at in H.
    apply (rmatch_captures (fun n v => group_lang n r v)) in H
      as (w & s' & g' & _ & _ & [= <-] & Hg & B); [| auto | easy].
    simpl. split; [exact Hg | intros n Hn; apply B; now left]. }
  induction s as [|c s IH]; intros m; simpl.
  - destruct (match_at r "") as [m'|] eqn:E; [| discriminate].
    intros [= <-]. now apply At in E.
  - destruct (match_at r (String c s)) as [m'|] eqn:E.
    + intros [= <-]. now apply At in E.
    + apply IH.
Qed.

(** [m.group(n)] of a group that the pattern always binds is a text of the
    language of that group. *)
Lemma group_bound r s m n :
  search r s = Some m -> binds n r = true -> group_lang n r (group m n).
Proof.
  intros H Hb. apply search_groups in H as [Hg B].
  unfold group. specialize (B n Hb).
  destruct (lookup_group n (groups m)) as [v|] eqn:E; [auto | easy].
Qed.
End ReFacts.

(** ** Facts about dicts *)
Module DictFacts.
Import Dict.

Lemma get_set (k k' v : string) (d : dict) :
  get k (set k' v d) = if String.eqb k' k then Some v else get k d.
Proof.
  induction d as [|[k0 v0] d IH]; simpl.
  - reflexivity.
  - destruct (String.eqb_spec k0 k') as [->|Hne]; simpl.
    + now destruct (String.eqb k' k).
    + rewrite IH. destruct (String.eqb_spec k0 k) as [->|Hk]; [| reflexivity].
      destruct (String.eqb_spec k' k); [congruence | reflexivity].
Qed.

Lemma get_None_keys (k : string) (d : dict) :
  get k d = None <-> ~ In k (keys d).
Proof.
  induction d as [|[k0 v0] d IH]; simpl; [tauto |].
  destruct (String.eqb_spec k0 k) as [->|Hne].
  - split; [discriminate | tauto].
  - rewrite IH. tauto.
Qed.

Lemma keys_set (k v : string) (d : dict) :
  keys (set k v d) = if mem k d then keys d else (keys d ++ [k])%list.
Proof.
  unfold mem. induction d as [|[k0 v0] d IH]; simpl; [reflexivity |].
  destruct (String.eqb_spec k0 k) as [->|Hne]; simpl; [reflexivity |].
  rewrite IH. now destruct (get k d).
Qed.

Lemma NoDup_keys_set (k v : string) (d : dict) :
  NoDup (keys d) -> NoDup (keys (set k v d)).
Proof.
  intros H. rewrite keys_set. unfold mem.
  destruct (get k d) eqn:E; [exact H |].
  apply get_None_keys in E.
  apply NoDup_app. split; [exact H |]. split.
  - intros x Hx Hk. apply list_elem_of_In in Hx, Hk.
    destruct Hk as [<-|[]]. contradiction.
  - apply NoDup_singleton.
Qed.

(** [d.update(d2)] reads as [d2] where [d2] has the key, as [d]
    elsewhere. *)
Lemma get_update (k : string) (d d2 : dict) :
  NoDup (keys d2) ->
  get k (update d d2)
  = match get k d2 with Some v => Some v | None => get k d end.
Proof.
  unfold update. revert d. induction d2 as [|[k0 v0] d2 IH]; intros d H; simpl.
  - reflexivity.
  - simpl in H. apply NoDup_cons in H as [Hk0 H].
    rewrite (IH _ H), get_set.
    destruct (String.eqb_spec k0 k) as [->|Hne]; [| reflexivity].
    assert (get k d2 = None) as ->; [| reflexivity].
    apply get_None_keys. now rewrite <- list_elem_of_In.
Qed.

Lemma get_update_or_else (k : string) (d d2 : dict) :
  NoDup (keys d2) -> get k (update d d2) = or_else (get k d2) (get k d).
Proof. apply get_update. Qed.

Lemma NoDup_keys_nil : NoDup (keys []).
Proof. apply NoDup_nil_2. Qed.

Lemma has_key_false_cons (k0 k : string) (ks : list string) :
  has_key (k0 :: ks) k = false ->
  String.eqb k0 k = false /\ has_key ks k = false.
Proof. unfold has_key. simpl. apply orb_false_elim. Qed.
End DictFacts.

(** ** Facts about exceptions *)
Module PyFacts.
Import Py.

Lemma Return_inj {A : Type} (a b : A) : Return a = Return b -> a = b.
Proof. now intros [= ->]. Qed.
End PyFacts.

(** ** Facts about the report parser *)
Module ParseResultsFacts.
Import Text Re Py Num Dict ParseResults TextFacts ReFacts DictFacts.

Ltac split_keys H :=
  unfold has_key, system_keys, input_keys, cpu_keys, io_keys, latency_keys,
    percentile_labels in H;
  cbn [existsb map] in H;
  repeat (apply orb_false_elim in H as [? H]).

Ltac use_key_facts :=
  rewrite ?get_set; cbn [get];
  repeat match goal with
    | E : String.eqb _ _ = false |- _ => rewrite E; clear E
    end;
  reflexivity.

(** *** Each extractor on its own *)

Lemma parse_system_info_NoDup c : NoDup (keys (parse_system_info c)).
Proof.
  simpl. apply NoDup_cons. split; [| apply NoDup_singleton].
  intros H. apply list_elem_of_In in H as [H|[]]. discriminate.
Qed.

Lemma parse_system_info_foreign c k :
  has_key system_keys k = false -> get k (parse_system_info c) = None.
Proof. intros H. split_keys H. unfold parse_system_info. use_key_facts. Qed.

(** [int] returns the number that a text of at most [max_str_digits]
    digits denotes, and raises [ValueError] on a longer one. *)
Lemma int_short s :
  (String.length s <= max_str_digits)%nat -> int s = Return (int_of_digits s).
Proof.
  intros H. unfold int.
  now destruct (Nat.ltb_spec max_str_digits (String.length s)); [lia |].
Qed.

Lemma int_long s :
  (max_str_digits < String.length s)%nat -> int s = Raise ValueError.
Proof.
  intros H. unfold int.
  now destruct (Nat.ltb_spec max_str_digits (String.length s)); [| lia].
Qed.

Lemma int_Return s n :
  int s = Return n ->
  n = int_of_digits s /\ (String.length s <= max_str_digits)%nat.
Proof.
  unfold int.
  destruct (Nat.ltb_spec max_str_digits (String.length s));
    [discriminate | intros [= <-]; auto].
Qed.

Lemma int_Raise s e :
  int s = Raise e ->
  e = ValueError /\ (max_str_digits < String.length s)%nat.
Proof.
  unfold int.
  destruct (Nat.ltb_spec max_str_digits (String.length s));
    [intros [= <-]; auto | discriminate].
Qed.

Lemma div_gib_Raise n e : div_gib n = Raise e -> e = OverflowError.
Proof. unfold div_gib. destruct (2 ^ 1054 <=? _)%Z; congruence. Qed.

Lemma parse_input_parameters_NoDup c params :
  parse_input_parameters c = Return params -> NoDup (keys params).
Proof.
  unfold parse_input_parameters, bind.
  repeat match goal with
    | |- context [search ?r c] => destruct (search r c)
    | |- context [int ?s] => destruct (int s)
    | |- context [div_gib ?n] => destruct (div_gib n)
    end;
    intros [= <-]; apply (bool_decide_unpack _); vm_compute; reflexivity.
Qed.

(** What [parse_input_parameters] returns, field by field. *)
Lemma parse_input_parameters_get c params :
  parse_input_parameters c = Return params ->
  get "duration" params
  = option_map (fun m => group m 1) (search duration_re c)
  /\ get "block_size" params
     = option_map (fun m => str_of_int (int_of_digits (group m 1) / 1024))
         (search block_size_re c)
  /\ get "outstanding_io" params
     = option_map (fun m => group m 1) (search outstanding_io_re c)
  /\ get "threads" params
     = option_map (fun m => group m 1) (search threads_re c)
  /\ match search file_size_re c with
     | Some m =>
         exists x, div_gib (int_of_digits (group m 1)) = Return x
                   /\ get "file_size_gb" params = Some (format_2f x)
     | None => get "file_size_gb" params = None
     end
  /\ get "io_type" params
     = option_map (fun m => group m 1) (search io_type_re c)
  /\ forall k, has_key input_keys k = false -> get k params = None.
Proof.
  unfold parse_input_parameters, bind.
  destruct (search duration_re c), (search block_size_re c),
    (search outstanding_io_re c), (search threads_re c),
    (search io_type_re c), (search file_size_re c) as [m|];
    repeat match goal with
      | |- context [int ?s] =>
          let I := fresh "I" in
          destruct (int s) eqn:I; [apply int_Return in I as [-> _] |]
      | |- context [div_gib ?n] =>
          let D := fresh "D" in destruct (div_gib n) eqn:D
      end;
    intros [= <-];
    (refine (conj _ (conj _ (conj _ (conj _ (conj _ (conj _ _))))));
     [reflexivity | reflexivity | reflexivity | reflexivity
     | first [eexists; split; reflexivity | reflexivity]
     | reflexivity
     | intros k Hk; split_keys Hk; use_key_facts]).
Qed.

(** The digits that [parse_input_parameters] converts are within the bound
    of [int] when it returns. *)
Lemma parse_input_parameters_lengths c params :
  parse_input_parameters c = Return params ->
  (forall m, search block_size_re c = Some m ->
             (String.length (group m 1) <= max_str_digits)%nat)
  /\ (forall m, search file_size_re c = Some m ->
                (String.length (group m 1) <= max_str_digits)%nat).
Proof.
  unfold parse_input_parameters, bind.
  destruct (search block_size_re c) as [mb|], (search file_size_re c) as [mf|];
    repeat match goal with
      | |- context [int ?s] =>
          let I := fresh "I" in
          destruct (int s) eqn:I; [apply int_Return in I as [_ I] |]
      end;
    try discriminate; intros _; split; intros m [= <-]; assumption.
Qed.

(** The errors of [parse_input_parameters] come from a block size or a file
    size that matched: [ValueError] for more digits than [int] converts,
    [OverflowError] for a file size too large for the division. *)
Lemma parse_input_parameters_Raise c e :
  parse_input_parameters c = Raise e ->
  (e = ValueError
   /\ ((exists m, search block_size_re c = Some m
                  /\ (max_str_digits < String.length (group m 1))%nat)
       \/ (exists m, search file_size_re c = Some m
                     /\ (max_str_digits < String.length (group m 1))%nat)))
  \/ (e = OverflowError
      /\ exists m, search file_size_re c = Some m
                   /\ div_gib (int_of_digits (group m 1)) = Raise OverflowError).
Proof.
  unfold parse_input_parameters, bind.
  destruct (search block_size_re c) as [mb|].
  - destruct (int (group mb 1)) as [nb|eb] eqn:Ib.
    + destruct (search file_size_re c) as [m|];
        [| now destruct (search io_type_re c)].
      destruct (int (group m 1)) as [n|e1] eqn:I.
      * apply int_Return in I as [-> _].
        destruct (div_gib _) as [x|e'] eqn:D;
          [now destruct (search io_type_re c) |].
        intros [= <-]. pose proof (div_gib_Raise _ _ D) as ->. eauto.
      * intros [= <-]. apply int_Raise in I as [-> I]. left. eauto.
    + intros [= <-]. apply int_Raise in Ib as [-> Ib]. left. eauto.
  - destruct (search file_size_re c) as [m|];
      [| now destruct (search io_type_re c)].
    destruct (int (group m 1)) as [n|e1] eqn:I.
    + apply int_Return in I as [-> _].
      destruct (div_gib _) as [x|e'] eqn:D;
        [now destruct (search io_type_re c) |].
      intros [= <-]. pose proof (div_gib_Raise _ _ D) as ->. eauto.
    + intros [= <-]. apply int_Raise in I as [-> I]. left. eauto.
Qed.

(** [parse_input_parameters] returns when the digits of the block size and
    of the file size, where they match, are within the bound of [int] and
    the file size is not too large for the division. *)
Lemma parse_input_parameters_returns c :
  (forall m, search block_size_re c = Some m ->
             (String.length (group m 1) <= max_str_digits)%nat) ->
  (forall m, search file_size_re c = Some m ->
             (String.length (group m 1) <= max_str_digits)%nat
             /\ exists x, div_gib (int_of_digits (group m 1)) = Return x) ->
  exists params, parse_input_parameters c = Return params.
Proof.
  intros Hb Hf.
  destruct (parse_input_parameters c) as [params|e] eqn:P; [eauto |].
  apply parse_input_parameters_Raise in P
    as [[_ [(m & Hm & L)|(m & Hm & L)]]|[_ (m & Hm & D)]].
  - specialize (Hb m Hm). lia.
  - destruct (Hf m Hm) as [L' _]. lia.
  - destruct (Hf m Hm) as [_ [x Hx]]. congruence.
Qed.

Lemma parse_cpu_usage_all_or_none c :
  parse_cpu_usage c = [] \/ keys (parse_cpu_usage c) = cpu_keys.
Proof. unfold parse_cpu_usage. destruct (search cpu_re c); auto. Qed.

Lemma parse_cpu_usage_NoDup c : NoDup (keys (parse_cpu_usage c)).
Proof.
  destruct (parse_cpu_usage_all_or_none c) as [->| ->];
    apply (bool_decide_unpack _); vm_compute; reflexivity.
Qed.

Lemma parse_cpu_usage_foreign c k :
  has_key cpu_keys k = false -> get k (parse_cpu_usage c) = None.
Proof.
  intros H. split_keys H. unfold parse_cpu_usage.
  destruct (search cpu_re c); [use_key_facts | reflexivity].
Qed.




Lemma parse_io_stats_all_or_none c io_type :
  parse_io_stats c io_type = []
  \/ keys (parse_io_stats c io_type) = io_keys io_type.
Proof. unfold parse_io_stats. destruct (search _ c); auto. Qed.

Lemma io_keys_NoDup io_type : NoDup (io_keys io_type).
Proof.
  unfold io_keys. apply NoDup_fmap_2.
  - intros a b. apply append_inj_l.
  - apply (bool_decide_unpack _). vm_compute. reflexivity.
Qed.

Lemma parse_io_stats_NoDup c io_type : NoDup (keys (parse_io_stats c io_type)).
Proof.
  destruct (parse_io_stats_all_or_none c io_type) as [->| ->];
    [apply NoDup_keys_nil | apply io_keys_NoDup].
Qed.

Lemma parse_io_stats_foreign c io_type k :
  has_key (io_keys io_type) k = false -> get k (parse_io_stats c io_type) = None.
Proof.
  intros H. split_keys H. unfold parse_io_stats.
  destruct (search _ c); [use_key_facts | reflexivity].
Qed.

Lemma parse_latency_percentiles_NoDup c :
  NoDup (keys (parse_latency_percentiles c)).
Proof.
  unfold parse_latency_percentiles.
  destruct (search latency_section_re c) as [sec|]; [| apply NoDup_keys_nil].
  unfold percentile_labels. cbn [fold_left]. unfold add_percentile.
  repeat match goal with
    | |- context [search ?r (whole sec)] => destruct (search r (whole sec))
    end;
    apply (bool_decide_unpack _); vm_compute; reflexivity.
Qed.

Lemma parse_latency_percentiles_foreign c k :
  has_key latency_keys k = false -> get k (parse_latency_percentiles c) = None.
Proof.
  intros H. split_keys H. unfold parse_latency_percentiles.
  destruct (search latency_section_re c) as [sec|]; [| reflexivity].
  unfold percentile_labels. cbn [fold_left]. unfold add_percentile.
  repeat match goal with
    | |- context [search ?r (whole sec)] => destruct (search r (whole sec))
    end; use_key_facts.
Qed.

(** What [parse_latency_percentiles] returns for each label. *)
Lemma parse_latency_percentiles_get c p :
  In p percentile_labels ->
  get ("latency_" +:+ p) (parse_latency_percentiles c)
  = match search latency_section_re c with
    | Some sec =>
        option_map (fun m => group m 1) (search (percentile_re p) (whole sec))
    | None => None
    end.
Proof.
  intros Hp. unfold parse_latency_percentiles.
  destruct (search latency_section_re c) as [sec|]; [| reflexivity].
  unfold percentile_labels in *. cbn [fold_left]. unfold add_percentile.
  simpl in Hp. decompose [or] Hp; subst; try contradiction;
    repeat match goal with
      | |- context [search ?r (whole sec)] => destruct (search r (whole sec))
      end; reflexivity.
Qed.

(** A row that the whole text does not hold is not in the section
    either. *)
Lemma parse_latency_percentiles_missing_row c p :
  In p percentile_labels ->
  search (percentile_re p) c = None ->
  get ("latency_" +:+ p) (parse_latency_percentiles c) = None.
Proof.
  intros Hp Hnone. rewrite (parse_latency_percentiles_get c p Hp).
  destruct (search latency_section_re c) as [sec|] eqn:S; [| reflexivity].
  apply search_Some in S as (pre & post & E & _).
  destruct (search (percentile_re p) (whole sec)) eqn:R; [| reflexivity].
  exfalso. apply (search_part (percentile_re p) pre (whole sec) post).
  - now rewrite R.
  - now rewrite <- E.
Qed.

(** *** The captured texts are in the domain of the conversions *)

(** The patterns whose group 1 is read as a number. *)
Lemma captured_digits r c m :
  In r [processor_count_re; duration_re; block_size_re; outstanding_io_re;
        threads_re; file_size_re] ->
  search r c = Some m ->
  group m 1 <> "" /\ all_in CDigit (group m 1) = true.
Proof.
  intros Hr H.
  assert (binds 1 r = true) as Hb
      by (cbn [In] in Hr; decompose [or] Hr; subst; easy).
  pose proof (group_bound r c m 1 H Hb) as G.
  cbn [In] in Hr; decompose [or] Hr; subst; try contradiction;
    simpl in G; intuition.
Qed.

Lemma int_go_nonneg s acc :
  all_in CDigit s = true -> (0 <= acc)%Z -> (0 <= int_go acc s)%Z.
Proof.
  revert acc. induction s as [|c s IH]; intros acc Hs Hacc; simpl; [exact Hacc |].
  simpl in Hs. apply andb_prop in Hs as [Hc Hs]. apply IH; [exact Hs |].
  unfold is_digit in Hc. apply andb_prop in Hc as [Hlo _].
  apply Nat.leb_le in Hlo. lia.
Qed.

(** [int] of a captured number is not negative. *)
Lemma int_of_digits_nonneg s :
  all_in CDigit s = true -> (0 <= int_of_digits s)%Z.
Proof. intros H. now apply int_go_nonneg. Qed.

(** Every group that the extractors read is bound by every match. *)
Lemma extractor_groups_bound :
  binds 1 command_line_re = true
  /\ binds 1 caching_options_re = true
  /\ binds 1 io_type_re = true
  /\ (forall n, In n [1; 2; 3; 4; 5] -> binds n cpu_re = true)
  /\ (forall io_type n, In n [1; 2; 3; 4; 5] -> binds n (io_re io_type) = true)
  /\ (forall percentile, binds 1 (percentile_re percentile) = true).
Proof.
  repeat split; try reflexivity;
    intros; cbn [In] in *;
    repeat match goal with H : _ \/ _ |- _ => destruct H end;
    subst; easy.
Qed.

(** *** The record *)

(** A record reads as the last extractor that holds the key. *)
Lemma parse_result_file_get fs path b n result :
  parse_result_file fs path b n = Return result ->
  exists content params,
    read_text fs path = Return content
    /\ parse_input_parameters content = Return params
    /\ forall k,
        get k result
        = or_else (get k (parse_latency_percentiles content))
            (or_else (get k (parse_io_stats content "Write"))
            (or_else (get k (parse_io_stats content "Read"))
            (or_else (get k (parse_io_stats content "Total"))
            (or_else (get k (parse_cpu_usage content))
            (or_else (get k params)
            (or_else (get k (parse_system_info content))
               (get k (set "command_line" (parse_command_line content)
                         [("benchmark_id", b); ("node_id", n)]))))))))%string.
Proof.
  unfold parse_result_file, bind.
  destruct (read_text fs path) as [content|]; [| discriminate].
  destruct (parse_input_parameters content) as [params|] eqn:P; [| discriminate].
  intros H. apply PyFacts.Return_inj in H. subst result.
  exists content, params.
  split; [reflexivity |]. split; [exact P |]. intros k.
  rewrite !get_update_or_else;
    auto using parse_latency_percentiles_NoDup, parse_io_stats_NoDup,
      parse_cpu_usage_NoDup, parse_system_info_NoDup.
  now apply parse_input_parameters_NoDup with content.
Qed.

(** Drop from a reading of the record the extractors that cannot hold the
    key. *)
Ltac drop_foreign content Gx :=
  rewrite ?(parse_latency_percentiles_foreign content) by reflexivity;
  rewrite ?(parse_io_stats_foreign content "Write") by reflexivity;
  rewrite ?(parse_io_stats_foreign content "Read") by reflexivity;
  rewrite ?(parse_io_stats_foreign content "Total") by reflexivity;
  rewrite ?(parse_cpu_usage_foreign content) by reflexivity;
  rewrite ?Gx by reflexivity;
  rewrite ?(parse_system_info_foreign content) by reflexivity;
  cbn [or_else].

Ltac each_key Hk :=
  unfold cpu_keys, io_keys, latency_keys, percentile_labels in Hk;
  cbn [map In] in Hk; decompose [or] Hk; subst; try contradiction.

(** C4 (as amended): in the record of a text, a field of the input
    parameters, of the CPU usage, of an I/O category or of the latency
    percentiles is absent when its pattern does not match the text, and a
    pattern that does not match never raises an error: every error of the
    extraction comes from a block size or a file size that did match, as
    [ValueError] when it has more digits than [int] converts and as
    [OverflowError] when the file size is too large for the division, and
    the extraction returns when neither is the case; the command line, the
    processor count and the caching options are always present and hold the
    placeholder "N/A" when their pattern does not match. *)
Theorem missing_pattern_field_absent_or_placeholder
        fs path benchmark_id node_id content :
  read_text fs path = Return content ->
  ((forall m, search block_size_re content = Some m ->
              (String.length (group m 1) <= max_str_digits)%nat) ->
   (forall m, search file_size_re content = Some m ->
              (String.length (group m 1) <= max_str_digits)%nat
              /\ exists x, div_gib (int_of_digits (group m 1)) = Return x) ->
   exists result, parse_result_file fs path benchmark_id node_id = Return result)
  /\ (forall e,
      parse_result_file fs path benchmark_id node_id = Raise e ->
      (e = ValueError
       /\ ((exists m, search block_size_re content = Some m
                      /\ (max_str_digits < String.length (group m 1))%nat)
           \/ (exists m, search file_size_re content = Some m
                         /\ (max_str_digits
                             < String.length (group m 1))%nat)))
      \/ (e = OverflowError
          /\ exists m, search file_size_re content = Some m
                       /\ div_gib (int_of_digits (group m 1))
                          = Raise OverflowError))
  /\ forall result,
      parse_result_file fs path benchmark_id node_id = Return result ->
      (search command_line_re content = None ->
       get "command_line" result = Some "N/A")
      /\ (search processor_count_re content = None ->
          get "processor_count" result = Some "N/A")
      /\ (search caching_options_re content = None ->
          get "caching_options" result = Some "N/A")
      /\ (search duration_re content = None -> get "duration" result = None)
      /\ (search block_size_re content = None ->
          get "block_size" result = None)
      /\ (search outstanding_io_re content = None ->
          get "outstanding_io" result = None)
      /\ (search threads_re content = None -> get "threads" result = None)
      /\ (search file_size_re content = None ->
          get "file_size_gb" result = None)
      /\ (search io_type_re content = None -> get "io_type" result = None)
      /\ (search cpu_re content = None ->
          forall k, In k cpu_keys -> get k result = None)
      /\ (forall io_type, In io_type ["Total"; "Read"; "Write"] ->
          search (io_re io_type) content = None ->
          forall k, In k (io_keys io_type) -> get k result = None)
      /\ (forall p, In p percentile_labels ->
          search (percentile_re p) content = None ->
          get ("latency_" +:+ p) result = None)
      /\ (search latency_section_re content = None ->
          forall k, In k latency_keys -> get k result = None).
Proof.
  intros R. split; [| split].
  - intros Hb Hf. unfold parse_result_file, bind. rewrite R.
    destruct (parse_input_parameters_returns content Hb Hf) as [params ->].
    eauto.
  - intros e. unfold parse_result_file, bind. rewrite R.
    destruct (parse_input_parameters content) as [params|e'] eqn:P;
      [discriminate | intros [= <-]].
    now apply parse_input_parameters_Raise.
  - intros result H.
    destruct (parse_result_file_get _ _ _ _ _ H) as (c' & params & R' & P & G).
    rewrite R in R'. apply PyFacts.Return_inj in R' as <-.
    destruct (parse_input_parameters_get _ _ P)
      as (Gd & Gb & Go & Gt & Gf & Gi & Gx).
    refine (conj _ (conj _ (conj _ (conj _ (conj _ (conj _ (conj _ (conj _
           (conj _ (conj _ (conj _ (conj _ _)))))))))))).
    + intros E. rewrite G. drop_foreign content Gx.
      rewrite get_set. unfold parse_command_line. now rewrite E.
    + intros E. rewrite G. drop_foreign content Gx.
      unfold parse_system_info. now rewrite E.
    + intros E. rewrite G. drop_foreign content Gx.
      unfold parse_system_info. now rewrite E.
    + intros E. rewrite G. drop_foreign content Gx. now rewrite Gd, E.
    + intros E. rewrite G. drop_foreign content Gx. now rewrite Gb, E.
    + intros E. rewrite G. drop_foreign content Gx. now rewrite Go, E.
    + intros E. rewrite G. drop_foreign content Gx. now rewrite Gt, E.
    + intros E. rewrite G. drop_foreign content Gx. rewrite E in Gf.
      now rewrite Gf.
    + intros E. rewrite G. drop_foreign content Gx. now rewrite Gi, E.
    + intros E k Hk. each_key Hk; rewrite G; drop_foreign content Gx;
        unfold parse_cpu_usage; now rewrite E.
    + intros io_type Hio E k Hk. cbn [In] in Hio.
      decompose [or] Hio; subst; try contradiction;
        each_key Hk; rewrite G; drop_foreign content Gx;
        unfold parse_io_stats; now rewrite E.
    + intros p Hp E.
      pose proof (parse_latency_percentiles_missing_row content p Hp E) as L.
      each_key Hp; rewrite G, L; now drop_foreign content Gx.
    + intros E k Hk. each_key Hk; rewrite G; drop_foreign content Gx;
        unfold parse_latency_percentiles; now rewrite E.
Qed.

Import Samples.

Lemma missing_pattern_field_absent_or_placeholder_witness :
  exists result,
    parse_result_file fs_blank "node-1.txt" "benchmark-01" "1" = Return result
    /\ get "command_line" result = Some "N/A"
    /\ get "duration" result = None
    /\ get "latency_max" result = None.
Proof.
  destruct (missing_pattern_field_absent_or_placeholder
              fs_blank "node-1.txt" "benchmark-01" "1" "" eq_refl)
    as (Hret & _ & Hall).
  destruct (Hret ltac:(intros m Hm; vm_compute in Hm; discriminate)
              ltac:(intros m Hm; vm_compute in Hm; discriminate))
    as [result H].
  exists result.
  destruct (Hall result H) as (Hc & _ & _ & Hd & _ & _ & _ & _ & _ & _ & _ & Hl & _).
  split; [exact H |]. split; [apply Hc; reflexivity |].
  split; [apply Hd; reflexivity |].
  apply (Hl "max"); [| reflexivity]. do 4 right. left. reflexivity.
Defined.

(** The record of an empty text holds the placeholder for the command
    line. *)
Lemma unmatched_command_line_gets_placeholder :
  search command_line_re "" = None
  /\ exists result,
      parse_result_file fs_blank "node-1.txt" "benchmark-01" "1" = Return result
      /\ get "command_line" result = Some "N/A".
Proof.
  split; [reflexivity |]. eexists. split; [vm_compute; reflexivity | reflexivity].
Qed.



(** Four percentages out of five give no CPU field, also in a text with a
    fifth percent sign elsewhere. *)
Lemma four_percentages_give_no_cpu_field :
  count_char "%" report_four_percentages = 4
  /\ parse_cpu_usage report_four_percentages = []
  /\ count_char "%" report_four_percentages_and_latency = 5
  /\ percentages report_four_percentages_and_latency = 4
  /\ parse_cpu_usage report_four_percentages_and_latency = [].
Proof. repeat split; vm_compute; reflexivity. Qed.

(** A latency table without the row of the maximum gives no latency field,
    whatever its other rows hold. *)
Lemma latency_rows_without_section_give_no_field :
  search (percentile_re "min") report_four_percentages_and_latency <> None
  /\ parse_latency_percentiles report_four_percentages_and_latency = [].
Proof. split; [vm_compute; discriminate | vm_compute; reflexivity]. Qed.

(** A block size of more digits than [int] converts raises [ValueError],
    before the file size is looked at. *)
Example long_block_size_raises :
  parse_input_parameters long_block_size_report = Raise ValueError.
Proof. vm_compute. reflexivity. Qed.


(** C6: a declared block size of 4096 bytes gives the field value 4, and a
    declared file size of 10737418240 bytes gives the field value 10.00, in
    every mapping that the extractor returns; a size of either value raises
    no error of its own, so the extractor returns whenever the other of the
    two sizes is absent or has no more digits than [int] converts and, for
    the file size, is not too large for the division. *)
Theorem block_size_in_kib_and_file_size_in_gib content :
  (forall m,
      search block_size_re content = Some m -> group m 1 = "4096" ->
      (forall params,
          parse_input_parameters content = Return params ->
          get "block_size" params = Some "4")
      /\ ((forall mf, search file_size_re content = Some mf ->
                      (String.length (group mf 1) <= max_str_digits)%nat
                      /\ exists x, div_gib (int_of_digits (group mf 1))
                                   = Return x) ->
          exists params, parse_input_parameters content = Return params))
  /\ (forall m,
      search file_size_re content = Some m -> group m 1 = "10737418240" ->
      (forall params,
          parse_input_parameters content = Return params ->
          get "file_size_gb" params = Some "10.00")
      /\ ((forall mb, search block_size_re content = Some mb ->
                      (String.length (group mb 1) <= max_str_digits)%nat) ->
          exists params, parse_input_parameters content = Return params)).
Proof.
  split.
  - intros m Hm Hg. split.
    + intros params P.
      destruct (parse_input_parameters_get _ _ P) as (_ & Gb & _).
      rewrite Gb, Hm. cbn [option_map]. rewrite Hg. reflexivity.
    + intros Hf. apply parse_input_parameters_returns; [| exact Hf].
      intros mb Hmb. rewrite Hm in Hmb. injection Hmb as <-. rewrite Hg.
      vm_compute. lia.
  - intros m Hm Hg. split.
    + intros params P.
      destruct (parse_input_parameters_get _ _ P) as (_ & _ & _ & _ & Gf & _).
      rewrite Hm, Hg in Gf. destruct Gf as (x & D & ->).
      vm_compute in D. apply PyFacts.Return_inj in D as <-. reflexivity.
    + intros Hb. apply parse_input_parameters_returns; [exact Hb |].
      intros mf Hmf. rewrite Hm in Hmf. injection Hmf as <-. rewrite Hg.
      split; [vm_compute; lia |]. eexists. vm_compute. reflexivity.
Qed.

Lemma block_size_in_kib_and_file_size_in_gib_witness :
  exists params,
    parse_input_parameters report = Return params
    /\ get "block_size" params = Some "4"
    /\ get "file_size_gb" params = Some "10.00".
Proof.
  destruct (block_size_in_kib_and_file_size_in_gib report) as [Hb Hf].
  destruct (Hf (MkMatch "size: 10737418240B" [(1, "10737418240")])
              ltac:(vm_compute; reflexivity) eq_refl) as [Gf Hret].
  destruct Hret as [params P].
  { intros mb Hmb. vm_compute in Hmb. injection Hmb as <-. vm_compute. lia. }
  exists params. split; [exact P |]. split; [| exact (Gf params P)].
  apply (Hb (MkMatch "block size: 4096" [(1, "4096")])
            ltac:(vm_compute; reflexivity) eq_refl).
  exact P.
Defined.

Lemma parse_result_file_block_size fs path b n content result :
  read_text fs path = Return content ->
  parse_result_file fs path b n = Return result ->
  get "block_size" result
  = option_map (fun m => str_of_int (int_of_digits (group m 1) / 1024))
      (search block_size_re content).
Proof.
  intros R H.
  destruct (parse_result_file_get _ _ _ _ _ H) as (c' & params & R' & P & G).
  rewrite R in R'. apply PyFacts.Return_inj in R' as <-.
  destruct (parse_input_parameters_get _ _ P) as (_ & Gb & _ & _ & _ & _ & Gx).
  rewrite G. drop_foreign content Gx. rewrite Gb.
  now destruct (search block_size_re content).
Qed.

(** *** Grouping by benchmark id *)

Lemma parse_result_file_benchmark_id fs path b n result :
  parse_result_file fs path b n = Return result ->
  get "benchmark_id" result = Some b.
Proof.
  intros H.
  destruct (parse_result_file_get _ _ _ _ _ H) as (content & params & _ & P & G).
  destruct (parse_input_parameters_get _ _ P) as (_ & _ & _ & _ & _ & _ & Gx).
  rewrite G. drop_foreign content Gx. now rewrite get_set.
Qed.

Lemma group_results_one (id : string) (results acc : list dict) :
  Forall (fun r => get "benchmark_id" r = Some id) results ->
  group_results results [(id, acc)] = Return [(id, (acc ++ results)%list)].
Proof.
  revert acc. induction results as [|r rest IH]; intros acc H; simpl.
  - now rewrite app_nil_r.
  - apply Forall_cons in H as [Hr H]. rewrite Hr. simpl.
    rewrite String.eqb_refl, (IH _ H). now rewrite <- app_assoc.
Qed.

Lemma group_results_nonempty (id : string) (r : dict) (rest : list dict) :
  Forall (fun r => get "benchmark_id" r = Some id) (r :: rest) ->
  group_results (r :: rest) [] = Return [(id, r :: rest)].
Proof.
  intros H. pose proof H as H'. apply Forall_cons in H' as [Hr Hrest].
  simpl. rewrite Hr. simpl. now rewrite (group_results_one id rest [r] Hrest).
Qed.

Section LayoutFacts.
Variable BASE_DIR : string.

Lemma process_node_files_ids fs node_files all_results :
  Forall (fun r => get "benchmark_id" r = Some "benchmark-01") all_results ->
  Forall (fun r => get "benchmark_id" r = Some "benchmark-01")
    (process_node_files BASE_DIR fs node_files all_results).
Proof.
  revert all_results. induction node_files as [|f rest IH]; intros all H; simpl.
  - exact H.
  - destruct (parse_result_file _ _ _ _) as [result|e] eqn:E; apply IH.
    + apply Forall_app. split; [exact H |].
      apply Forall_singleton. now apply parse_result_file_benchmark_id in E.
    + exact H.
Qed.

Lemma write_csv_dom output_file fieldnames rows (out : gmap string csv_file) :
  dom (snd (write_csv output_file fieldnames rows out))
  = {[output_file]} ∪ dom out.
Proof.
  unfold write_csv. destruct (writerows _ _ _) as [res content]. simpl.
  apply dom_insert_L.
Qed.

Lemma write_one_group (id name : string) (r : dict) (rest : list dict)
      (out : gmap string csv_file) :
  dom (snd (write_groups BASE_DIR name [(id, r :: rest)] out))
  = {[benchmark_csv_path BASE_DIR name id]} ∪ dom out.
Proof.
  simpl.
  pose proof (write_csv_dom (benchmark_csv_path BASE_DIR name id) (keys r)
                (r :: rest) out) as D.
  destruct (write_csv _ _ _ _) as [[[]|e] out']; exact D.
Qed.

(** C7: for a non-empty list of records the name of the block-size
    directory is the [block_size] field of the first record followed by
    "K" (so "4K" for a report that declares a block size of 4096 bytes),
    and the sentinel "unknown_block_size" when the first record has no such
    field; the summary file is written to the directory of that name. *)
Theorem block_size_dir_from_first_record
        (first : dict) (rest : list dict) (out : gmap string csv_file) :
  get_block_size_dir (first :: rest)
  = match get "block_size" first with
    | Some block_size => block_size +:+ "K"
    | None => "unknown_block_size"
    end
  /\ dom (snd (write_summary_csv BASE_DIR (first :: rest) None out))
     = {[path_join
           (path_join (VM_SIZE_DIR BASE_DIR) (get_block_size_dir (first :: rest)))
           ("benchmark_summary_" +:+ get_block_size_dir (first :: rest)
            +:+ ".csv")]} ∪ dom out
  /\ forall fs path benchmark_id node_id content,
      read_text fs path = Return content ->
      parse_result_file fs path benchmark_id node_id = Return first ->
      get_block_size_dir (first :: rest)
      = match search block_size_re content with
        | Some m => str_of_int (int_of_digits (group m 1) / 1024) +:+ "K"
        | None => "unknown_block_size"
        end.
Proof.
  split; [reflexivity |]. split.
  - unfold write_summary_csv. apply write_csv_dom.
  - intros fs path b n content R H. unfold get_block_size_dir.
    rewrite (parse_result_file_block_size _ _ _ _ _ _ R H).
    now destruct (search block_size_re content).
Qed.

(** The records of a pass form one group, and the per-benchmark writer,
    called on them, writes to one file. *)
Lemma one_group_one_file fs results :
  process_benchmark_results BASE_DIR fs = Return results ->
  Forall (fun r => get "benchmark_id" r = Some "benchmark-01") results
  /\ (results <> [] ->
      group_results results [] = Return [("benchmark-01", results)]
      /\ forall out,
          dom (snd (write_benchmark_specific_csvs BASE_DIR results out))
          = {[benchmark_csv_path BASE_DIR (get_block_size_dir results)
                "benchmark-01"]} ∪ dom out)
  /\ (results = [] ->
      group_results results [] = Return []
      /\ forall out,
          write_benchmark_specific_csvs BASE_DIR results out = (Return tt, out)).
Proof.
  unfold process_benchmark_results, bind.
  destruct (listdir fs _) as [names|]; [| discriminate].
  intros H. apply PyFacts.Return_inj in H.
  assert (Forall (fun r => get "benchmark_id" r = Some "benchmark-01") results)
    as Hid.
  { subst results. apply process_node_files_ids. constructor. }
  clear H. split; [exact Hid |]. split.
  - destruct results as [|r rest]; [easy | intros _].
    pose proof (group_results_nonempty _ _ _ Hid) as G.
    split; [exact G |]. intros out.
    unfold write_benchmark_specific_csvs. rewrite G. apply write_one_group.
  - intros ->. split; [reflexivity | intros out; reflexivity].
Qed.
End LayoutFacts.

Lemma block_size_dir_from_first_record_witness :
  match parse_result_file fs_one "results/node-1.txt" "benchmark-01" "1" with
  | Return first => get_block_size_dir [first] = "4K"
  | Raise _ => False
  end.
Proof.
  destruct (parse_result_file fs_one "results/node-1.txt" "benchmark-01" "1")
    as [first|e] eqn:E.
  - rewrite (proj2 (proj2 (block_size_dir_from_first_record
                             "/opt/splitbench" first [] ∅))
               fs_one "results/node-1.txt" "benchmark-01" "1" report eq_refl E).
    vm_compute. reflexivity.
  - vm_compute in E. discriminate.
Defined.

Example block_size_dir_of_report :
  match process_benchmark_results "/opt/splitbench" fs_one with
  | Return results => get_block_size_dir results = "4K"
  | Raise _ => False
  end.
Proof. vm_compute. reflexivity. Qed.

(** Without artifacts there is no group and no per-benchmark file. *)
Lemma no_records_no_group_no_file :
  process_benchmark_results "/opt/splitbench" fs_empty = Return []
  /\ group_results [] [] = Return []
  /\ main "/opt/splitbench" fs_empty ∅ = (Return tt, ∅).
Proof. repeat split. Qed.
End ParseResultsFacts.

(** ** Facts about the orchestrator and log retrieval *)
Module CliFacts.
Import Text Num Cli TextFacts.

Lemma path_div_shape (dir name : string) :
  exists pre, path_div dir name = pre +:+ name.
Proof.
  unfold path_div.
  destruct (String.eqb dir "."); [exists ""; reflexivity |].
  destruct (endswith dir "/"); [exists dir; reflexivity |].
  exists (dir +:+ "/"). now rewrite append_assoc.
Qed.



Lemma last_char_node_file (dir : string) (n : Z) :
  last_char (node_file dir n) = Some "t"%char.
Proof.
  unfold node_file.
  destruct (path_div_shape dir ("node-" +:+ str_of_int n +:+ ".txt")) as [pre ->].
  change ("node-" +:+ str_of_int n +:+ ".txt")
    with ("node-" +:+ (str_of_int n +:+ ".txt")).
  rewrite <- !append_assoc. now rewrite last_char_append.
Qed.

Lemma last_char_temp_node_file (i : Z) :
  last_char (temp_node_file i) = Some "l"%char.
Proof.
  unfold temp_node_file.
  change ("temp_node_" +:+ str_of_int i +:+ ".yaml")
    with ("temp_node_" +:+ (str_of_int i +:+ ".yaml")).
  rewrite <- append_assoc. now rewrite last_char_append.
Qed.

Lemma temp_node_file_not_artifact (dir : string) (i n : Z) :
  temp_node_file i <> node_file dir n.
Proof.
  intros H. apply (f_equal last_char) in H.
  rewrite last_char_node_file, last_char_temp_node_file in H. discriminate.
Qed.

Lemma temp_node_file_inj (i j : Z) :
  temp_node_file i = temp_node_file j -> i = j.
Proof.
  unfold temp_node_file. intros H.
  apply (append_inj_l "temp_node_") in H. apply append_inj_r in H.
  now apply str_of_int_inj.
Qed.

Lemma temp_single_not_artifact (dir : string) :
  "temp_single_node.yaml" <> path_div dir "single-node.txt".
Proof.
  destruct (path_div_shape dir "single-node.txt") as [pre E]. rewrite E.
  intros H. apply (f_equal last_char) in H.
  rewrite last_char_append in H; discriminate.
Qed.

Lemma node_range_NoDup (nodes : Z) : NoDup (node_range nodes).
Proof.
  unfold node_range. apply NoDup_fmap_2; [apply Nat2Z.inj' | apply NoDup_seq].
Qed.

Section Facts.
Variable World : Type.
Variable subprocess_run : list string -> World -> completed * World.

Abbreviation state := (Cli.state World).
Abbreviation run := (Cli.run World subprocess_run).
Abbreviation wait_for_job_completion :=
  (Cli.wait_for_job_completion World subprocess_run).
Abbreviation label_attempt := (Cli.label_attempt World subprocess_run).
Abbreviation job_name_fallback := (Cli.job_name_fallback World subprocess_run).
Abbreviation capture_logs := (Cli.capture_logs World subprocess_run).
Abbreviation process_node := (Cli.process_node World subprocess_run).
Abbreviation process_all_nodes := (Cli.process_all_nodes World subprocess_run).
Abbreviation run_kubectl_command := (Cli.run_kubectl_command World subprocess_run).
Abbreviation deploy_jobs := (Cli.deploy_jobs World subprocess_run).

(** A child process changes the cluster, never the files of the tool. *)
Lemma run_files (argv : list string) (st : state) :
  files (snd (run argv st)) = files st.
Proof.
  unfold Cli.run. now destruct (subprocess_run argv (world st)).
Qed.

Lemma run_eq (argv : list string) (st : state) r st' :
  run argv st = (r, st') ->
  subprocess_run argv (world st) = (r, world st') /\ files st' = files st.
Proof.
  unfold Cli.run. destruct (subprocess_run argv (world st)) as [r0 w].
  intros [= <- <-]. auto.
Qed.

Lemma wait_files (job : string) (t : Z) (st : state) :
  files (snd (wait_for_job_completion job t st)) = files st.
Proof.
  unfold Cli.wait_for_job_completion.
  match goal with |- context [run ?a st] =>
    pose proof (run_files a st) as H; destruct (run a st) as [[?|?] ?] end;
    exact H.
Qed.

Lemma label_attempt_files (n : Z) (st : state) :
  files (snd (label_attempt n st)) = files st.
Proof.
  unfold Cli.label_attempt.
  repeat match goal with
    | |- context [run ?a ?s] =>
        let H := fresh "H" in
        pose proof (run_files a s) as H;
        destruct (run a s) as [[?|?] ?]; simpl in H
    | |- context [if ?b then _ else _] => destruct b
    end; simpl; congruence.
Qed.

(** The fallback writes the artifact, except when its pod query succeeds
    with a blank answer: then it ends without a write. *)
Lemma job_name_fallback_files (n : Z) (output_file e : string) (st : state) :
  match run (job_pods_argv n) st with
  | (Completed job_pods, _) =>
      if String.eqb (strip job_pods) "" then
        files (job_name_fallback n output_file e st) = files st
      else
        exists text,
          files (job_name_fallback n output_file e st)
          = <[output_file := text]> (files st)
  | (CalledProcessError _, _) =>
      exists text,
        files (job_name_fallback n output_file e st)
        = <[output_file := text]> (files st)
  end.
Proof.
  unfold Cli.job_name_fallback.
  pose proof (run_files (job_pods_argv n) st) as H.
  destruct (run (job_pods_argv n) st) as [[pods|e2] st1]; simpl in H.
  - destruct (String.eqb (strip pods) ""); simpl; [exact H |].
    match goal with |- context [run ?a st1] =>
      pose proof (run_files a st1) as H1;
      destruct (run a st1) as [[?|?] ?] end; simpl in *;
      eexists; rewrite H1, H; reflexivity.
  - eexists. simpl. rewrite H. reflexivity.
Qed.

(** Log retrieval touches no file but the worker's artifact. *)
Lemma capture_logs_other (n : Z) (dir : string) (st : state) (p : string) :
  p <> node_file dir n ->
  files (capture_logs n dir st) !! p = files st !! p.
Proof.
  intros Hp. unfold Cli.capture_logs.
  pose proof (label_attempt_files n st) as H.
  destruct (label_attempt n st) as [[out|e] st1]; simpl in H.
  - simpl. rewrite H. now apply lookup_insert_ne.
  - pose proof (job_name_fallback_files n (node_file dir n) e st1) as F.
    destruct (run (job_pods_argv n) st1) as [[pods|e2] st2].
    + destruct (String.eqb (strip pods) "").
      * now rewrite F, H.
      * destruct F as [text ->]. rewrite H. now apply lookup_insert_ne.
    + destruct F as [text ->]. rewrite H. now apply lookup_insert_ne.
Qed.

Abbreviation blank_job_pods := (Cli.blank_job_pods World subprocess_run).


Lemma capture_logs_blank (n : Z) (dir : string) (st : state) :
  blank_job_pods n st -> files (capture_logs n dir st) = files st.
Proof.
  intros (e & st1 & pods & st2 & EL & ER & Hb). unfold Cli.capture_logs.
  pose proof (label_attempt_files n st) as H. rewrite EL in *. simpl in H.
  pose proof (job_name_fallback_files n (node_file dir n) e st1) as F.
  rewrite ER, Hb in F. simpl in F. congruence.
Qed.

Lemma wait_eq (job : string) (t : Z) (st : state) b st' :
  wait_for_job_completion job t st = (b, st') -> files st' = files st.
Proof.
  intros H. pose proof (wait_files job t st) as F. now rewrite H in F.
Qed.

Lemma process_node_other (dir : string) (n : Z) (st : state) (p : string) :
  p <> node_file dir n ->
  files (process_node dir n st) !! p = files st !! p.
Proof.
  intros Hp. unfold Cli.process_node.
  destruct (wait_for_job_completion _ _ st) as [[] st1] eqn:W;
    apply wait_eq in W; rewrite <- W; [now apply capture_logs_other | reflexivity].
Qed.


Section WholeRun.
(** Every wait reports completion. *)
Hypothesis waits_complete :
  forall argv w, nth_error argv 1 = Some "wait" ->
    exists out w', subprocess_run argv w = (Completed out, w').
(** The pod query of the fallback never succeeds with a blank answer. *)
Hypothesis job_pods_not_blank :
  forall n w pods w',
    subprocess_run (job_pods_argv n) w = (Completed pods, w') ->
    strip pods <> "".


End WholeRun.



(** C2 (as amended): a worker whose wait step ends in timeout is not
    passed to log retrieval: its sequence ends with the wait, no further
    request is made and no file is written. *)
Theorem process_node_timeout_skips_retrieval
        (dir : string) (n : Z) (st st1 : state) :
  wait_for_job_completion ("diskspd-node-" +:+ str_of_int n)
    default_timeout st = (false, st1) ->
  process_node dir n st = st1 /\ files (process_node dir n st) = files st.
Proof.
  intros W. unfold Cli.process_node. rewrite W. split; [reflexivity |].
  now apply wait_eq in W.
Qed.

(** C9: when the label-based log request fails and the pod query by job
    name succeeds with a blank pod list, [capture_logs] returns after
    these two requests without writing any file. *)
Theorem capture_logs_blank_pod_list_writes_nothing
        (dir : string) (n : Z) (st : state) (e pods : string) (w1 w2 : World) :
  subprocess_run ["kubectl"; "logs"; "-l";
                  "node-test=node-" +:+ str_of_int n; "--tail=500"]
    (world st) = (CalledProcessError e, w1) ->
  subprocess_run (job_pods_argv n) w1 = (Completed pods, w2) ->
  strip pods = "" ->
  capture_logs n dir st = MkState w2 (files st).
Proof.
  intros H1 H2 Hb.
  unfold Cli.capture_logs, Cli.label_attempt, Cli.run. rewrite H1.
  unfold Cli.job_name_fallback, Cli.run. simpl. rewrite H2, Hb. reflexivity.
Qed.

(** *** Transient template files *)

Lemma run_kubectl_command_eq (command : list string) (st : state) r st' :
  run_kubectl_command command st = (r, st') ->
  files st' = files st
  /\ match r with
     | inr out =>
         subprocess_run ("kubectl" :: command) (world st)
         = (Completed out, world st')
     | inl s =>
         s = Exit 1
         /\ exists e, subprocess_run ("kubectl" :: command) (world st)
                      = (CalledProcessError e, world st')
     end.
Proof.
  unfold Cli.run_kubectl_command.
  destruct (run ("kubectl" :: command) st) as [[out|e] st1] eqn:R;
    apply run_eq in R as [R F]; intros [= <- <-]; eauto.
Qed.

(** A deployment loop that runs to its end leaves absent every path that
    was absent before it. *)
Lemma deploy_jobs_keeps_absent (template : string) (l : list Z)
      (st st' : state) (p : string) :
  deploy_jobs template l st = (Finished, st') ->
  files st !! p = None -> files st' !! p = None.
Proof.
  revert st. induction l as [|i l IH]; intros st; simpl.
  - now intros [= <-].
  - destruct (run_kubectl_command _ _) as [[s|out] st1] eqn:A.
    + apply run_kubectl_command_eq in A as [_ [-> _]]. discriminate.
    + apply run_kubectl_command_eq in A as [F _]. intros D Hp.
      apply (IH _ D). simpl. rewrite F. simpl.
      destruct (decide (temp_node_file i = p)) as [<-|Hne].
      * apply lookup_delete_eq.
      * rewrite lookup_delete_ne, lookup_insert_ne; auto.
Qed.

Lemma deploy_jobs_finished (template : string) (l : list Z) (st st' : state) :
  deploy_jobs template l st = (Finished, st') ->
  forall i, In i l -> files st' !! temp_node_file i = None.
Proof.
  revert st. induction l as [|j l IH]; intros st; simpl; [easy |].
  destruct (run_kubectl_command _ _) as [[s|out] st1] eqn:A.
  - apply run_kubectl_command_eq in A as [_ [-> _]]. discriminate.
  - apply run_kubectl_command_eq in A as [F _]. intros D i [<-|Hi].
    + apply (deploy_jobs_keeps_absent _ _ _ _ _ D). simpl.
      apply lookup_delete_eq.
    + now apply (IH _ D).
Qed.

Lemma deploy_jobs_exit (template : string) (l : list Z) (st st' : state)
      (code : Z) :
  deploy_jobs template l st = (Exit code, st') ->
  code = 1%Z
  /\ exists i, In i l
       /\ files st' !! temp_node_file i
          = Some (replace template "${NODE_NUM}" (str_of_int i)).
Proof.
  revert st. induction l as [|j l IH]; intros st; simpl; [discriminate |].
  destruct (run_kubectl_command _ _) as [[s|out] st1] eqn:A.
  - apply run_kubectl_command_eq in A as [F [-> _]]. intros [= <- <-].
    split; [reflexivity |]. exists j. split; [now left |].
    rewrite F. simpl. apply lookup_insert_eq.
  - intros D. destruct (IH _ D) as [-> (i & Hi & Hf)]. eauto.
Qed.

(** The deployment loop changes no file but the template files of its
    workers. *)
Lemma deploy_jobs_untouched (template : string) (l : list Z) (st : state)
      (p : string) :
  (forall i, In i l -> p <> temp_node_file i) ->
  files (snd (deploy_jobs template l st)) !! p = files st !! p.
Proof.
  revert st. induction l as [|i l IH]; intros st Hp; simpl.
  - reflexivity.
  - assert (temp_node_file i <> p) as Hi
        by (apply not_eq_sym, Hp; now left).
    destruct (run_kubectl_command _ _) as [[s|o] st1] eqn:A;
      apply run_kubectl_command_eq in A as [F _]; simpl.
    + rewrite F. simpl. now apply lookup_insert_ne.
    + rewrite IH by (intros j Hj; apply Hp; now right). simpl.
      rewrite F. simpl. now rewrite lookup_delete_ne, lookup_insert_ne.
Qed.

(** After the accepted submissions of a first part of the workers, the loop
    goes on with the rest. *)
Lemma deploy_jobs_app (template : string) (l1 l2 : list Z) (st st1 : state) :
  deploy_jobs template l1 st = (Finished, st1) ->
  deploy_jobs template (l1 ++ l2) st = deploy_jobs template l2 st1.
Proof.
  revert st. induction l1 as [|i l1 IH]; intros st; simpl.
  - now intros [= <-].
  - destruct (run_kubectl_command _ _) as [[s|o] st'] eqn:A.
    + apply run_kubectl_command_eq in A as [_ [-> _]]. discriminate.
    + apply IH.
Qed.

(** The step of the loop at a worker whose submission is rejected: exit
    code 1, in the state of the rejection, with the rendered text left in
    the template file of that worker. *)
Lemma deploy_jobs_reject_head (template : string) (i : Z) (l : list Z)
      (st : state) (e : string) (w : World) :
  subprocess_run ["kubectl"; "apply"; "-f"; temp_node_file i] (world st)
  = (CalledProcessError e, w) ->
  deploy_jobs template (i :: l) st
  = (Exit 1,
     MkState w (<[temp_node_file i :=
                    replace template "${NODE_NUM}" (str_of_int i)]> (files st))).
Proof.
  intros H. simpl. unfold Cli.run_kubectl_command, Cli.run, Cli.write_file.
  simpl. now rewrite H.
Qed.

(** The step of the loop at a worker whose submission is accepted: the
    template file is written, submitted and removed, and the loop goes on
    with the next worker. *)
Lemma deploy_jobs_accept_head (template : string) (i : Z) (l : list Z)
      (st : state) (out : string) (w : World) :
  subprocess_run ["kubectl"; "apply"; "-f"; temp_node_file i] (world st)
  = (Completed out, w) ->
  deploy_jobs template (i :: l) st
  = deploy_jobs template l
      (MkState w
         (delete (temp_node_file i)
            (<[temp_node_file i :=
                 replace template "${NODE_NUM}" (str_of_int i)]> (files st)))).
Proof.
  intros H. simpl.
  unfold Cli.run_kubectl_command, Cli.run, Cli.write_file, Cli.remove.
  simpl. now rewrite H.
Qed.

(** A deployment loop that ends with an exit code stopped at a rejected
    submission: the submissions before it were accepted, the template file
    of the rejected worker is left with the rendered text, and nothing was
    done for the workers after it. *)
Lemma deploy_jobs_rejected (template : string) (l : list Z) (st st' : state)
      (code : Z) :
  deploy_jobs template l st = (Exit code, st') ->
  code = 1%Z
  /\ exists l1 i l2 st1 e w,
       l = (l1 ++ i :: l2)%list
       /\ deploy_jobs template l1 st = (Finished, st1)
       /\ subprocess_run ["kubectl"; "apply"; "-f"; temp_node_file i]
            (world st1) = (CalledProcessError e, w)
       /\ st' = MkState w
                  (<[temp_node_file i :=
                       replace template "${NODE_NUM}" (str_of_int i)]>
                     (files st1)).
Proof.
  revert st. induction l as [|j l IH]; intros st; [discriminate |].
  destruct (subprocess_run ["kubectl"; "apply"; "-f"; temp_node_file j]
              (world st)) as [[out|e] w] eqn:A.
  - simpl. unfold Cli.run_kubectl_command, Cli.run, Cli.write_file. simpl.
    rewrite A. intros D.
    destruct (IH _ D) as [-> (l1 & i & l2 & st1 & e & w' & -> & D1 & R & ->)].
    split; [reflexivity |].
    exists (j :: l1), i, l2, st1, e, w'.
    split; [reflexivity |]. split; [| split; [exact R | reflexivity]].
    simpl. unfold Cli.run_kubectl_command, Cli.run, Cli.write_file. simpl.
    now rewrite A.
  - rewrite (deploy_jobs_reject_head template j l st e w A).
    intros [= <- <-]. split; [reflexivity |].
    exists [], j, l, st, e, w. split; [reflexivity |].
    split; [reflexivity |]. split; [exact A | reflexivity].
Qed.

Lemma process_nodes_other (dir : string) (l : list Z) (st : state)
      (p : string) :
  (forall n, p <> node_file dir n) ->
  files (fold_left (fun st i => process_node dir i st) l st) !! p
  = files st !! p.
Proof.
  intros Hp. revert st. induction l as [|i l IH]; intros st; simpl;
    [reflexivity |].
  rewrite IH. now apply process_node_other.
Qed.

Section Commands.
Variable read_template : string -> string.
Abbreviation single := (Cli.single World subprocess_run read_template).
Abbreviation multi := (Cli.multi World subprocess_run read_template).

Lemma single_accepted storage_class duration dir (st : state) out w :
  subprocess_run ["kubectl"; "apply"; "-f"; "temp_single_node.yaml"]
    (world st) = (Completed out, w) ->
  fst (single storage_class duration dir st) = Finished
  /\ files (snd (single storage_class duration dir st))
     !! "temp_single_node.yaml" = None.
Proof.
  intros H. unfold Cli.single.
  destruct (run_kubectl_command _ _) as [[s|o] st1] eqn:A.
  - apply run_kubectl_command_eq in A as [_ [_ [e' A]]]. simpl in A.
    congruence.
  - apply run_kubectl_command_eq in A as [F _].
    destruct (wait_for_job_completion _ _ _) as [[] st2] eqn:W;
      apply wait_eq in W; simpl in W.
    + destruct (run_kubectl_command _ st2) as [[s|logs] st3] eqn:L;
        apply run_kubectl_command_eq in L as [F3 _]; simpl.
      * rewrite F3, W, F. simpl. split; [reflexivity | apply lookup_delete_eq].
      * split; [reflexivity |].
        rewrite lookup_insert_ne
          by apply not_eq_sym, temp_single_not_artifact.
        rewrite F3, W, F. simpl. apply lookup_delete_eq.
    + simpl. rewrite W, F. simpl. split; [reflexivity | apply lookup_delete_eq].
Qed.

Lemma single_rejected storage_class duration dir (st : state) e w :
  subprocess_run ["kubectl"; "apply"; "-f"; "temp_single_node.yaml"]
    (world st) = (CalledProcessError e, w) ->
  fst (single storage_class duration dir st) = Exit 1
  /\ files (snd (single storage_class duration dir st))
     !! "temp_single_node.yaml"
     = Some (Cli.single_manifest read_template storage_class duration).
Proof.
  intros H. unfold Cli.single, Cli.run_kubectl_command, Cli.run; simpl.
  rewrite H; simpl. split; [reflexivity | apply lookup_insert_eq].
Qed.

Lemma multi_finished nodes storage_class duration dir (st : state) :
  fst (multi nodes storage_class duration dir st) = Finished ->
  forall i, In i (node_range nodes) ->
    files (snd (multi nodes storage_class duration dir st))
    !! temp_node_file i = None.
Proof.
  unfold Cli.multi.
  destruct (deploy_jobs _ _ st) as [[|code] st1] eqn:D; simpl;
    [intros _ i Hi | discriminate].
  unfold Cli.process_all_nodes. rewrite process_nodes_other.
  - now apply (deploy_jobs_finished _ _ _ _ D).
  - intros n. apply temp_node_file_not_artifact.
Qed.

(** The template of [multi] after the storage class and the duration have
    been filled in. *)
Abbreviation multi_template storage_class duration :=
  (replace
     (replace (read_template "multi-node.yaml") "${STORAGE_CLASS}"
        storage_class)
     (dquote +:+ "-d60" +:+ dquote)
     (dquote +:+ "-d" +:+ str_of_int duration +:+ dquote)).

(** The template files of the workers whose submissions were accepted are
    absent at the end of [multi], whatever happens to the submissions after
    them. *)
Lemma multi_accepted_prefix nodes storage_class duration dir (st st1 : state)
      (l1 l2 : list Z) :
  node_range nodes = (l1 ++ l2)%list ->
  deploy_jobs (multi_template storage_class duration) l1 st = (Finished, st1) ->
  forall j, In j l1 ->
    files (snd (multi nodes storage_class duration dir st))
    !! temp_node_file j = None.
Proof.
  intros Hr D1 j Hj.
  destruct (multi nodes storage_class duration dir st) as [[|code] st'] eqn:M.
  - pose proof (multi_finished nodes storage_class duration dir st) as F.
    rewrite M in F. apply (F eq_refl). rewrite Hr. apply in_or_app. now left.
  - unfold Cli.multi in M. rewrite Hr, (deploy_jobs_app _ _ _ _ _ D1) in M.
    destruct (deploy_jobs _ l2 st1) as [[|c] st2] eqn:D2; [discriminate |].
    injection M as -> ->.
    apply deploy_jobs_rejected in D2
      as [_ (l3 & i & l4 & st3 & e & w & -> & D3 & _ & ->)].
    simpl. rewrite lookup_insert_ne.
    + apply (deploy_jobs_keeps_absent _ _ _ _ _ D3).
      now apply (deploy_jobs_finished _ _ _ _ D1).
    + intros Heq. apply temp_node_file_inj in Heq. subst j.
      pose proof (node_range_NoDup nodes) as N. rewrite Hr in N.
      apply NoDup_app in N as (_ & N & _).
      apply (N i); [now apply list_elem_of_In |].
      apply list_elem_of_In, in_or_app. right. now left.
Qed.

(** A rejected submission ends [multi] at once. *)
Lemma multi_rejected_at nodes storage_class duration dir (st st1 : state)
      (l1 l2 : list Z) (i : Z) (e : string) (w : World) :
  node_range nodes = (l1 ++ i :: l2)%list ->
  deploy_jobs (multi_template storage_class duration) l1 st = (Finished, st1) ->
  subprocess_run ["kubectl"; "apply"; "-f"; temp_node_file i] (world st1)
  = (CalledProcessError e, w) ->
  multi nodes storage_class duration dir st
  = (Exit 1,
     MkState w
       (<[temp_node_file i :=
            replace (multi_template storage_class duration) "${NODE_NUM}"
              (str_of_int i)]> (files st1))).
Proof.
  intros Hr D1 R. unfold Cli.multi.
  now rewrite Hr, (deploy_jobs_app _ _ _ _ _ D1),
    (deploy_jobs_reject_head _ _ _ _ _ _ R).
Qed.

(** A run of [multi] that ends with an exit code. *)
Lemma multi_exit nodes storage_class duration dir (st : state) code :
  fst (multi nodes storage_class duration dir st) = Exit code ->
  code = 1%Z
  /\ exists l1 i l2 st1 e w,
       node_range nodes = (l1 ++ i :: l2)%list
       /\ deploy_jobs (multi_template storage_class duration) l1 st
          = (Finished, st1)
       /\ subprocess_run ["kubectl"; "apply"; "-f"; temp_node_file i]
            (world st1) = (CalledProcessError e, w)
       /\ snd (multi nodes storage_class duration dir st)
          = MkState w
              (<[temp_node_file i :=
                   replace (multi_template storage_class duration)
                     "${NODE_NUM}" (str_of_int i)]> (files st1))
       /\ (forall j, In j l1 ->
           files (snd (multi nodes storage_class duration dir st))
           !! temp_node_file j = None)
       /\ (forall j, In j l2 ->
           files (snd (multi nodes storage_class duration dir st))
           !! temp_node_file j = files st !! temp_node_file j).
Proof.
  intros M.
  assert (exists st', deploy_jobs (multi_template storage_class duration)
                        (node_range nodes) st = (Exit code, st')) as [st' D].
  { unfold Cli.multi in M.
    destruct (deploy_jobs _ _ st) as [[|c] st'] eqn:D; simpl in M;
      [discriminate |]. injection M as ->. eauto. }
  apply deploy_jobs_rejected in D
    as [-> (l1 & i & l2 & st1 & e & w & Hr & D1 & R & _)].
  split; [reflexivity |]. exists l1, i, l2, st1, e, w.
  pose proof (multi_rejected_at _ storage_class duration dir _ _ _ _ _ _ _
                Hr D1 R) as E.
  split; [exact Hr |]. split; [exact D1 |]. split; [exact R |].
  split; [now rewrite E |]. split.
  - replace (l1 ++ i :: l2)%list with (l1 ++ (i :: l2))%list in Hr
      by reflexivity.
    apply (multi_accepted_prefix _ _ _ dir _ _ _ _ Hr D1).
  - intros j Hj. rewrite E. simpl.
    pose proof (node_range_NoDup nodes) as N. rewrite Hr in N.
    apply NoDup_app in N as (_ & N1 & N2). apply NoDup_cons in N2 as [N2 _].
    rewrite lookup_insert_ne.
    + pose proof (deploy_jobs_untouched
                    (multi_template storage_class duration) l1 st
                    (temp_node_file j)) as U.
      rewrite D1 in U. apply U. intros k Hk Heq.
      apply temp_node_file_inj in Heq. subst k.
      apply (N1 j); [now apply list_elem_of_In |].
      apply list_elem_of_In. now right.
    + intros Heq. apply temp_node_file_inj in Heq. subst j.
      apply N2. now apply list_elem_of_In.
Qed.

(** C3 (as amended): the rendered template file written for submission is
    deleted after the submission call when the control plane accepts the
    submission, in single-node and in multi-node mode: in multi-node mode
    the step of the loop at an accepted submission removes the file before
    the next worker is taken up, and the file of every worker of a first
    part of the workers over which the loop has run, all their submissions
    accepted, is absent at the end of the command, whatever happens to the
    submissions after it.  When
    the control plane rejects a submission, the command ends at once with
    exit code 1 and the file of the rejected submission, and of no other
    worker, stays in place with the rendered text: the files of the workers
    accepted before it are deleted and nothing is written for the workers
    after it. *)
Theorem template_file_deleted_when_submission_accepted :
  (forall storage_class duration dir (st : state) out w,
      subprocess_run ["kubectl"; "apply"; "-f"; "temp_single_node.yaml"]
        (world st) = (Completed out, w) ->
      fst (single storage_class duration dir st) = Finished
      /\ files (snd (single storage_class duration dir st))
         !! "temp_single_node.yaml" = None)
  /\ (forall storage_class duration dir (st : state) e w,
      subprocess_run ["kubectl"; "apply"; "-f"; "temp_single_node.yaml"]
        (world st) = (CalledProcessError e, w) ->
      fst (single storage_class duration dir st) = Exit 1
      /\ files (snd (single storage_class duration dir st))
         !! "temp_single_node.yaml"
         = Some (Cli.single_manifest read_template storage_class duration))
  /\ (forall nodes storage_class duration dir (st : state),
      fst (multi nodes storage_class duration dir st) = Finished ->
      forall i, In i (node_range nodes) ->
        files (snd (multi nodes storage_class duration dir st))
        !! temp_node_file i = None)
  /\ (forall template i l (st : state) out w,
      subprocess_run ["kubectl"; "apply"; "-f"; temp_node_file i] (world st)
      = (Completed out, w) ->
      deploy_jobs template (i :: l) st
      = deploy_jobs template l
          (MkState w
             (delete (temp_node_file i)
                (<[temp_node_file i :=
                     replace template "${NODE_NUM}" (str_of_int i)]>
                   (files st)))))
  /\ (forall nodes storage_class duration dir (st st1 : state) l1 l2,
      node_range nodes = (l1 ++ l2)%list ->
      deploy_jobs (multi_template storage_class duration) l1 st
      = (Finished, st1) ->
      forall j, In j l1 ->
        files (snd (multi nodes storage_class duration dir st))
        !! temp_node_file j = None)
  /\ (forall nodes storage_class duration dir (st st1 : state) l1 l2 i e w,
      node_range nodes = (l1 ++ i :: l2)%list ->
      deploy_jobs (multi_template storage_class duration) l1 st
      = (Finished, st1) ->
      subprocess_run ["kubectl"; "apply"; "-f"; temp_node_file i] (world st1)
      = (CalledProcessError e, w) ->
      multi nodes storage_class duration dir st
      = (Exit 1,
         MkState w
           (<[temp_node_file i :=
                replace (multi_template storage_class duration) "${NODE_NUM}"
                  (str_of_int i)]> (files st1))))
  /\ (forall nodes storage_class duration dir (st : state) code,
      fst (multi nodes storage_class duration dir st) = Exit code ->
      code = 1%Z
      /\ exists l1 i l2 st1 e w,
           node_range nodes = (l1 ++ i :: l2)%list
           /\ deploy_jobs (multi_template storage_class duration) l1 st
              = (Finished, st1)
           /\ subprocess_run ["kubectl"; "apply"; "-f"; temp_node_file i]
                (world st1) = (CalledProcessError e, w)
           /\ snd (multi nodes storage_class duration dir st)
              = MkState w
                  (<[temp_node_file i :=
                       replace (multi_template storage_class duration)
                         "${NODE_NUM}" (str_of_int i)]> (files st1))
           /\ (forall j, In j l1 ->
               files (snd (multi nodes storage_class duration dir st))
               !! temp_node_file j = None)
           /\ (forall j, In j l2 ->
               files (snd (multi nodes storage_class duration dir st))
               !! temp_node_file j = files st !! temp_node_file j)).
Proof.
  split; [| split; [| split; [| split; [| split; [| split]]]]].
  - exact single_accepted.
  - exact single_rejected.
  - exact multi_finished.
  - exact deploy_jobs_accept_head.
  - exact multi_accepted_prefix.
  - exact multi_rejected_at.
  - exact multi_exit.
Qed.
End Commands.
End Facts.

Import Samples.



Lemma process_node_timeout_skips_retrieval_witness :
  Cli.process_node unit cp_timeout_first "results" 1 st0 = st0
  /\ files (Cli.process_node unit cp_timeout_first "results" 1 st0) = files st0.
Proof.
  apply (process_node_timeout_skips_retrieval unit cp_timeout_first).
  reflexivity.
Defined.

(** A worker whose wait times out gets no artifact. *)
Lemma timed_out_worker_has_no_artifact :
  Cli.wait_for_job_completion unit cp_timeout_first "diskspd-node-1"
    default_timeout st0 = (false, st0)
  /\ files (Cli.process_node unit cp_timeout_first "results" 1 st0)
     !! node_file "results" 1 = None.
Proof. split; vm_compute; reflexivity. Qed.

Lemma capture_logs_blank_pod_list_writes_nothing_witness :
  Cli.capture_logs unit cp_no_pods 1 "results" st0 = MkState tt (files st0).
Proof.
  apply (capture_logs_blank_pod_list_writes_nothing unit cp_no_pods
           "results" 1%Z st0 "not found" "" tt tt); reflexivity.
Defined.

Lemma template_file_deleted_when_submission_accepted_witness :
  files (snd (Cli.single unit cp_ok templates "fast" 30 "results" st0))
  !! "temp_single_node.yaml" = None
  /\ files (snd (Cli.multi unit cp_ok templates 2 "fast" 30 "results" st0))
     !! temp_node_file 2 = None
  /\ Cli.multi unit cp_reject_second templates 2 "fast" 30 "results" st0
     = (Exit 1,
        MkState tt
          {[ "temp_node_2.yaml" :=
             "storageClassName: default; args: " +:+ dquote +:+ "-d30"
             +:+ dquote +:+ "; node: 2" ]})
  /\ files (snd (Cli.multi unit cp_reject_second templates 2 "fast" 30
                   "results" st0))
     !! temp_node_file 1 = None.
Proof.
  pose proof (template_file_deleted_when_submission_accepted
                unit cp_ok templates) as (Hs & _ & Hm & _).
  pose proof (template_file_deleted_when_submission_accepted
                unit cp_reject_second templates)
    as (_ & _ & _ & _ & Ha & Hr & _).
  split; [| split; [| split]].
  - apply (Hs "fast" 30%Z "results" st0 "log line" tt). reflexivity.
  - apply (Hm 2%Z "fast" 30%Z "results" st0); [reflexivity |].
    right. left. reflexivity.
  - rewrite (Hr 2%Z "fast" 30%Z "results" st0 st0 [1%Z] [] 2%Z "forbidden" tt
               eq_refl eq_refl eq_refl).
    vm_compute. reflexivity.
  - apply (Ha 2%Z "fast" 30%Z "results" st0 st0 [1%Z] [2%Z] eq_refl eq_refl).
    left. reflexivity.
Defined.

(** A rejected submission leaves the rendered template file behind. *)
Lemma rejected_submission_leaves_template_file :
  Cli.single unit cp_reject templates "fast" 30 "results" st0
  = (Exit 1,
     MkState tt {[ "temp_single_node.yaml" :=
                   Cli.single_manifest templates "fast" 30 ]})
  /\ files (snd (Cli.multi unit cp_reject templates 2 "fast" 30 "results" st0))
     !! temp_node_file 1 <> None.
Proof. split; [vm_compute; reflexivity | vm_compute; discriminate]. Qed.
End CliFacts.

(** ** Further facts about text *)
Module TextMore.
Import Text Re Num TextFacts ReFacts.

(** *** [startswith] and [endswith] *)

Lemma startswith_append (p s : string) : startswith (p +:+ s) p = true.
Proof. unfold startswith. now rewrite strip_prefix_append. Qed.

Lemma rev_acc_append (s acc : string) : rev_acc s acc = rev s +:+ acc.
Proof.
  unfold rev. revert acc. induction s as [|c s IH]; intros acc; simpl.
  - reflexivity.
  - rewrite (IH (String c acc)), (IH (String c "")).
    now rewrite append_assoc.
Qed.

Lemma rev_append (a b : string) : rev (a +:+ b) = rev b +:+ rev a.
Proof.
  induction a as [|c a IH]; simpl.
  - now rewrite append_nil_r.
  - unfold rev at 1 3. simpl. rewrite !rev_acc_append, IH.
    now rewrite append_assoc.
Qed.

Lemma endswith_append (s p : string) : endswith (s +:+ p) p = true.
Proof. unfold endswith. rewrite rev_append. apply startswith_append. Qed.

(** *** [replace] *)

Lemma replace_go_skip (old new a s : string) :
  replace_go old new (String.length a) (a +:+ s) = replace_go old new 0 s.
Proof. induction a as [|c a IH]; simpl; [now destruct s | exact IH]. Qed.

(** An occurrence at the head is replaced, and the scan goes on behind
    it. *)
Lemma replace_head (old new s : string) :
  old <> "" -> replace (old +:+ s) old new = new +:+ replace s old new.
Proof.
  intros Hne. destruct old as [|c old]; [easy |]. unfold replace.
  change (String c old +:+ s) with (String c (old +:+ s)).
  cbn [replace_go].
  change (String c (old +:+ s)) with (String c old +:+ s).
  rewrite strip_prefix_append. cbn [String.length Nat.pred].
  now rewrite replace_go_skip.
Qed.

(** A character that does not start an occurrence is kept. *)
Lemma replace_step (old new : string) (c : ascii) (s : string) :
  strip_prefix old (String c s) = None ->
  replace (String c s) old new = String c (replace s old new).
Proof. intros H. unfold replace. cbn [replace_go]. now rewrite H. Qed.

(** Replacing a text by itself changes nothing. *)
Lemma replace_same (old s : string) : old <> "" -> replace s old old = s.
Proof.
  intros Hne.
  assert (forall n s, String.length s <= n -> replace s old old = s) as H.
  { clear s. induction n as [|n IH]; intros s Hs.
    - destruct s; [reflexivity | simpl in Hs; lia].
    - destruct s as [|c s]; [reflexivity |].
      destruct (strip_prefix old (String c s)) as [s'|] eqn:E.
      + apply strip_prefix_Some in E. rewrite E, (replace_head _ _ _ Hne).
        f_equal. apply IH.
        apply (f_equal String.length) in E. rewrite length_append in E.
        simpl in *. destruct old; [easy | simpl in E; lia].
      + rewrite (replace_step _ _ _ _ E). f_equal. apply IH. simpl in Hs. lia. }
  now apply (H (String.length s)).
Qed.

(** A text without the first character of [old] holds no occurrence of
    [old]; such a text in front is passed over. *)
Lemma replace_passes (c : ascii) (old new d s : string) :
  count_char c d = 0 ->
  replace (d +:+ s) (String c old) new = d +:+ replace s (String c old) new.
Proof.
  induction d as [|a d IH]; intros H; [reflexivity |].
  simpl in H. destruct (Ascii.eqb_spec a c) as [->|Hne]; [discriminate |].
  change (String a d +:+ s) with (String a (d +:+ s)).
  rewrite replace_step.
  - now rewrite IH.
  - simpl. destruct (Ascii.eqb_spec c a); [congruence | reflexivity].
Qed.

Lemma replace_absent (c : ascii) (old new d : string) :
  count_char c d = 0 -> replace d (String c old) new = d.
Proof.
  intros H. rewrite <- (append_nil_r d) at 1.
  rewrite (replace_passes c old new d "" H). now rewrite append_nil_r.
Qed.

(** *** The decimal text of an int *)

Lemma all_in_count (cl : cclass) (c : ascii) (s : string) :
  all_in cl s = true -> class_mem cl c = false -> count_char c s = 0.
Proof.
  intros Hs Hc. induction s as [|a s IH]; [reflexivity |].
  simpl in *. apply andb_prop in Hs as [Ha Hs].
  destruct (Ascii.eqb_spec a c) as [->|_]; [congruence | now apply IH].
Qed.

Lemma string_of_uint_digits (d : Decimal.uint) :
  all_in CDigit (NilEmpty.string_of_uint d) = true.
Proof. induction d; simpl; auto. Qed.

Lemma string_of_uint_not_empty (d : Decimal.uint) :
  NilZero.string_of_uint d <> "".
Proof. destruct d; discriminate. Qed.

(** [str(n)] of an int that is not negative is a non-empty text of
    digits. *)
Lemma str_of_int_digits (n : Z) :
  (0 <= n)%Z -> str_of_int n <> "" /\ all_in CDigit (str_of_int n) = true.
Proof.
  intros H. unfold str_of_int.
  destruct n as [|p|p]; [split; [discriminate | reflexivity] | | lia].
  simpl. split; [apply string_of_uint_not_empty |].
  unfold NilZero.string_of_uint.
  destruct (Pos.to_uint p); try reflexivity; apply string_of_uint_digits.
Qed.

(** [str(n)] holds digits and at most a sign. *)
Lemma str_of_int_numeric (n : Z) :
  all_in (CUnion CDigit (CChar "-")) (str_of_int n) = true.
Proof.
  assert (forall d, all_in (CUnion CDigit (CChar "-"))
                      (NilZero.string_of_uint d) = true) as U.
  { intros d. unfold NilZero.string_of_uint.
    assert (all_in (CUnion CDigit (CChar "-")) (NilEmpty.string_of_uint d)
            = true) as E by (induction d; simpl; auto).
    destruct d; try reflexivity; exact E. }
  unfold str_of_int. destruct (Z.to_int n) as [d|d];
    cbn [NilZero.string_of_int all_in]; [apply U |].
  now rewrite U.
Qed.
End TextMore.

(** ** Further facts about the orchestrator and log retrieval *)
Module CliMore.
Import Text Num Cli TextFacts CliFacts Samples.

Section Retrieval.
Variable World : Type.
Variable subprocess_run : list string -> World -> completed * World.

Abbreviation state := (Cli.state World).
Abbreviation run := (Cli.run World subprocess_run).
Abbreviation label_attempt := (Cli.label_attempt World subprocess_run).
Abbreviation capture_logs := (Cli.capture_logs World subprocess_run).
Abbreviation process_node := (Cli.process_node World subprocess_run).
Abbreviation process_all_nodes := (Cli.process_all_nodes World subprocess_run).

(** The request of strategy A for worker [n]. *)
Abbreviation label_logs_argv n :=
  ["kubectl"; "logs"; "-l"; "node-test=node-" +:+ str_of_int n; "--tail=500"].
(** The pod query of strategy B for worker [n]. *)
Abbreviation label_pods_argv n :=
  ["kubectl"; "get"; "pods"; "-l"; "node-test=node-" +:+ str_of_int n;
   "-o"; "name"].

Lemma run_Completed argv (st : state) out w :
  subprocess_run argv (world st) = (Completed out, w) ->
  run argv st = (Completed out, MkState w (files st)).
Proof. intros H. unfold Cli.run. now rewrite H. Qed.

Lemma run_Error argv (st : state) e w :
  subprocess_run argv (world st) = (CalledProcessError e, w) ->
  run argv st = (CalledProcessError e, MkState w (files st)).
Proof. intros H. unfold Cli.run. now rewrite H. Qed.

Lemma eqb_empty_false (s : string) : s <> "" -> String.eqb s "" = false.
Proof. intros H. now apply String.eqb_neq. Qed.

Ltac answered H := erewrite run_Completed; [| exact H]; cbn [files world].
Ltac failed H := erewrite run_Error; [| exact H]; cbn [files world].
Ltac blank H := rewrite H; cbn [String.eqb negb].
Ltac not_blank H := rewrite (eqb_empty_false _ H); cbn [negb].

(** X1: when the label-based log request answers with text that is not
    blank, that text is the artifact of the worker, and no other request is
    made. *)
Theorem capture_logs_label_output
        (dir : string) (n : Z) (st : state) (out : string) (w1 : World) :
  subprocess_run (label_logs_argv n) (world st) = (Completed out, w1) ->
  strip out <> "" ->
  capture_logs n dir st = MkState w1 (<[node_file dir n := out]> (files st)).
Proof.
  intros H1 Hout. unfold Cli.capture_logs, Cli.label_attempt.
  answered H1. not_blank Hout. reflexivity.
Qed.

(** X2: when the label-based log request answers with blank text and the
    pod query by label lists pods, the artifact is the answer to the log
    request for the first pod listed, blank or not. *)
Theorem capture_logs_first_labelled_pod
        (dir : string) (n : Z) (st : state) (out pods out' : string)
        (w1 w2 w3 : World) :
  subprocess_run (label_logs_argv n) (world st) = (Completed out, w1) ->
  strip out = "" ->
  subprocess_run (label_pods_argv n) w1 = (Completed pods, w2) ->
  strip pods <> "" ->
  subprocess_run ["kubectl"; "logs"; first_line (strip pods); "--tail=500"] w2
  = (Completed out', w3) ->
  capture_logs n dir st = MkState w3 (<[node_file dir n := out']> (files st)).
Proof.
  intros H1 Hout H2 Hpods H3. unfold Cli.capture_logs, Cli.label_attempt.
  answered H1. blank Hout. answered H2. not_blank Hpods. answered H3.
  reflexivity.
Qed.

(** X3: when the label-based log request answers with blank text and the
    pod query by label lists no pod, the blank text itself is written as the
    artifact: the worker gets a file without a log in it, and the fallback
    by job name is not tried. *)
Theorem capture_logs_blank_output_written
        (dir : string) (n : Z) (st : state) (out pods : string) (w1 w2 : World) :
  subprocess_run (label_logs_argv n) (world st) = (Completed out, w1) ->
  strip out = "" ->
  subprocess_run (label_pods_argv n) w1 = (Completed pods, w2) ->
  strip pods = "" ->
  capture_logs n dir st = MkState w2 (<[node_file dir n := out]> (files st)).
Proof.
  intros H1 Hout H2 Hpods. unfold Cli.capture_logs, Cli.label_attempt.
  answered H1. blank Hout. answered H2. blank Hpods. reflexivity.
Qed.


(** The placeholder that [capture_logs] writes when both attempts fail. *)
Abbreviation diagnostic n e e2 :=
  ("Failed to capture logs for node " +:+ str_of_int n +:+ "." +:+ nl
   +:+ "Error: " +:+ e +:+ nl +:+ "Second error: " +:+ e2).



(** X6: a run over [nodes] workers changes no file but the artifacts of
    these workers: every other path, the artifact of a worker outside the
    run included, reads after the run as before it. *)
Theorem process_all_nodes_frame
        (dir : string) (nodes : Z) (st : state) (p : string) :
  (forall n, In n (node_range nodes) -> p <> node_file dir n) ->
  files (process_all_nodes dir nodes st) !! p = files st !! p.
Proof.
  unfold Cli.process_all_nodes. generalize (node_range nodes) as l.
  intros l. revert st. induction l as [|i l IH]; intros st Hp; simpl.
  - reflexivity.
  - rewrite IH by (intros n Hn; apply Hp; now right).
    apply process_node_other. apply Hp. now left.
Qed.
End Retrieval.

Section Commands.
Variable World : Type.
Variable subprocess_run : list string -> World -> completed * World.
Variable read_template : string -> string.

Abbreviation state := (Cli.state World).
Abbreviation single := (Cli.single World subprocess_run read_template).
Abbreviation multi := (Cli.multi World subprocess_run read_template).
Abbreviation deploy_jobs := (Cli.deploy_jobs World subprocess_run).
Abbreviation run_kubectl_command :=
  (Cli.run_kubectl_command World subprocess_run).

Abbreviation apply_single_argv :=
  ["kubectl"; "apply"; "-f"; "temp_single_node.yaml"].
Abbreviation wait_single_argv :=
  ["kubectl"; "wait"; "--for=condition=complete"; "job/diskspd-single-node";
   "--timeout=" +:+ str_of_int default_timeout +:+ "s"].
Abbreviation logs_single_argv :=
  ["kubectl"; "logs"; "-l"; "node-test=single-node"; "--tail=500"].

Ltac answered H :=
  erewrite run_Completed; [| exact H]; cbn [files world].
Ltac failed H := erewrite run_Error; [| exact H]; cbn [files world].


(** X8: with a worker count of zero or less, [multi] submits nothing, waits
    for nothing and writes nothing: it ends normally in the state it
    started in. *)
Theorem multi_without_workers
        (nodes : Z) (storage_class : string) (duration : Z) (dir : string)
        (st : state) :
  (nodes <= 0)%Z ->
  multi nodes storage_class duration dir st = (Finished, st).
Proof.
  intros H. unfold Cli.multi, Cli.process_all_nodes, node_range.
  replace (Z.to_nat nodes) with 0 by lia. reflexivity.
Qed.

(** The deployment loop changes no file but the template files. *)
Lemma deploy_jobs_other (template : string) (l : list Z) (st : state)
      (p : string) :
  (forall i, p <> temp_node_file i) ->
  files (snd (deploy_jobs template l st)) !! p = files st !! p.
Proof.
  intros Hp. revert st. induction l as [|i l IH]; intros st; simpl.
  - reflexivity.
  - destruct (run_kubectl_command _ _) as [[s|o] st1] eqn:A;
      apply run_kubectl_command_eq in A as [F _]; simpl.
    + rewrite F. simpl. apply lookup_insert_ne. apply not_eq_sym, Hp.
    + rewrite IH. simpl. rewrite F. simpl.
      rewrite lookup_delete_ne, lookup_insert_ne; auto using not_eq_sym.
Qed.

(** X9: when [multi] ends with an exit code, no wait and no log retrieval
    has taken place: every path that is not a template file, so every
    artifact, reads as before the run.  When it is the first submission that
    is rejected, nothing else is submitted. *)
Theorem multi_rejected_writes_no_artifact
        (nodes : Z) (storage_class : string) (duration : Z) (dir : string)
        (st : state) :
  (forall code p,
      fst (multi nodes storage_class duration dir st) = Exit code ->
      (forall i, p <> temp_node_file i) ->
      files (snd (multi nodes storage_class duration dir st)) !! p
      = files st !! p)
  /\ (forall e w1,
      (1 <= nodes)%Z ->
      subprocess_run ["kubectl"; "apply"; "-f"; temp_node_file 1]
        (world st) = (CalledProcessError e, w1) ->
      world (snd (multi nodes storage_class duration dir st)) = w1
      /\ fst (multi nodes storage_class duration dir st) = Exit 1).
Proof.
  split.
  - intros code p. unfold Cli.multi.
    pose proof (deploy_jobs_other
                  (replace
                     (replace (read_template "multi-node.yaml")
                        "${STORAGE_CLASS}" storage_class)
                     (dquote +:+ "-d60" +:+ dquote)
                     (dquote +:+ "-d" +:+ str_of_int duration +:+ dquote))
                  (node_range nodes) st p) as D.
    destruct (deploy_jobs _ _ st) as [[|c] st1]; simpl; [discriminate |].
    intros _ Hp. now apply D.
  - intros e w1 Hn HA. unfold Cli.multi, node_range.
    destruct (Z.to_nat nodes) as [|k] eqn:E; [lia |].
    cbn [seq map deploy_jobs Cli.deploy_jobs]. change (Z.of_nat 1) with 1%Z.
    unfold Cli.run_kubectl_command, Cli.write_file. failed HA.
    split; reflexivity.
Qed.
End Commands.

(** *** The properties on scripted control planes *)

Lemma capture_logs_label_output_witness :
  Cli.capture_logs _ cp_scripted 1 "results" (scripted [Completed "log line"])
  = MkState [] {[ "results/node-1.txt" := "log line" ]}.
Proof.
  apply (capture_logs_label_output _ cp_scripted "results" 1
           (scripted [Completed "log line"]) "log line" []).
  - reflexivity.
  - vm_compute. discriminate.
Defined.

Lemma capture_logs_first_labelled_pod_witness :
  Cli.capture_logs _ cp_scripted 1 "results"
    (scripted [Completed " "; Completed ("pod/a" +:+ nl +:+ "pod/b" +:+ nl);
               Completed "log of a"])
  = MkState [] {[ "results/node-1.txt" := "log of a" ]}.
Proof.
  apply (capture_logs_first_labelled_pod _ cp_scripted "results" 1
           (scripted [Completed " ";
                      Completed ("pod/a" +:+ nl +:+ "pod/b" +:+ nl);
                      Completed "log of a"])
           " " ("pod/a" +:+ nl +:+ "pod/b" +:+ nl) "log of a"
           [Completed ("pod/a" +:+ nl +:+ "pod/b" +:+ nl); Completed "log of a"]
           [Completed "log of a"] []).
  - reflexivity.
  - reflexivity.
  - reflexivity.
  - vm_compute. discriminate.
  - reflexivity.
Defined.

Lemma capture_logs_blank_output_written_witness :
  Cli.capture_logs _ cp_scripted 1 "results"
    (scripted [Completed " "; Completed ""])
  = MkState [] {[ "results/node-1.txt" := " " ]}.
Proof.
  apply (capture_logs_blank_output_written _ cp_scripted "results" 1
           (scripted [Completed " "; Completed ""]) " " "" [Completed ""] []);
    reflexivity.
Defined.



Lemma process_all_nodes_frame_witness :
  files (Cli.process_all_nodes _ cp_ok "results" 2
           (MkState tt {[ "results/node-3.txt" := "old log" ]}))
  !! "results/node-3.txt" = Some "old log".
Proof.
  rewrite (process_all_nodes_frame _ cp_ok "results" 2
             (MkState tt {[ "results/node-3.txt" := "old log" ]})
             "results/node-3.txt").
  - reflexivity.
  - intros n [<-|[<-|[]]]; vm_compute; discriminate.
Defined.


Lemma multi_without_workers_witness :
  Cli.multi _ cp_reject templates 0 "fast" 30 "results" st0 = (Finished, st0).
Proof. apply multi_without_workers. lia. Defined.

Lemma multi_rejected_writes_no_artifact_witness :
  files (snd (Cli.multi _ cp_reject templates 2 "fast" 30 "results" st0))
  !! node_file "results" 1 = None
  /\ fst (Cli.multi _ cp_reject templates 2 "fast" 30 "results" st0) = Exit 1.
Proof.
  destruct (multi_rejected_writes_no_artifact
              _ cp_reject templates 2 "fast" 30 "results" st0) as [Hf Hr].
  split.
  - rewrite (Hf 1%Z (node_file "results" 1)).
    + reflexivity.
    + reflexivity.
    + intros i H. symmetry in H. revert H. apply temp_node_file_not_artifact.
  - apply (Hr "forbidden" tt); [lia | reflexivity].
Defined.
End CliMore.

(** ** Further facts about the manifests *)
Module ManifestMore.
Import Text Re Num Cli TextFacts ReFacts CliFacts TextMore.
Import Samples.

(** Every occurrence of a placeholder is replaced and the text between the
    occurrences is kept, when that text is free of the first character of
    the placeholder. *)
Lemma replace_join (c : ascii) (old new : string) (parts : list string) :
  Forall (fun p => count_char c p = 0) parts ->
  replace (join (String c old) parts) (String c old) new = join new parts.
Proof.
  induction parts as [|p [|q rest] IH]; intros H.
  - reflexivity.
  - apply Forall_cons in H as [Hp _]. now apply replace_absent.
  - apply Forall_cons in H as [Hp H].
    change (join (String c old) (p :: q :: rest))
      with (p +:+ (String c old +:+ join (String c old) (q :: rest))).
    rewrite (replace_passes c old new p _ Hp).
    rewrite replace_head by discriminate. now rewrite (IH H).
Qed.

Section Manifests.
Variable World : Type.
Variable subprocess_run : list string -> World -> completed * World.
Variable read_template : string -> string.

Abbreviation state := (Cli.state World).
Abbreviation multi := (Cli.multi World subprocess_run read_template).
Abbreviation deploy_jobs := (Cli.deploy_jobs World subprocess_run).
Abbreviation run_kubectl_command :=
  (Cli.run_kubectl_command World subprocess_run).
Abbreviation write_file := (Cli.write_file World).
Abbreviation remove := (Cli.remove World).

(** X10: with the storage class "default" and the duration 60, the
    defaults of the command line, [single] submits the template as it is. *)
Theorem single_manifest_defaults :
  single_manifest read_template "default" 60 = read_template "single-node.yaml".
Proof.
  unfold single_manifest.
  change (dquote +:+ "-d" +:+ str_of_int 60 +:+ dquote)
    with (dquote +:+ "-d60" +:+ dquote).
  now rewrite !replace_same by discriminate.
Qed.

(** The template of [multi] after the storage class and the duration have
    been filled in. *)
Abbreviation multi_template storage_class duration :=
  (replace
     (replace (read_template "multi-node.yaml") "${STORAGE_CLASS}"
        storage_class)
     (dquote +:+ "-d60" +:+ dquote)
     (dquote +:+ "-d" +:+ str_of_int duration +:+ dquote)).

(** X11: in the manifest that [multi] writes for a worker, every
    occurrence of the placeholder of the worker index is replaced by the
    decimal text of the index, and the text between the occurrences is that
    of the template, when it holds no dollar sign.  The submission of every
    worker [i] that the loop reaches, after the accepted submissions of the
    workers before it, runs with the template file of [i] holding that text;
    when that submission is rejected, the command ends with exit code 1 and
    leaves the file of [i] with that text. *)
Theorem node_manifest_fills_every_placeholder
        (nodes : Z) (storage_class : string) (duration : Z) (dir : string)
        (st st1 : state) (parts : list string) (l1 l2 : list Z) (i : Z) :
  multi_template storage_class duration = join "${NODE_NUM}" parts ->
  Forall (fun p => count_char "$" p = 0) parts ->
  node_range nodes = (l1 ++ i :: l2)%list ->
  deploy_jobs (multi_template storage_class duration) l1 st = (Finished, st1) ->
  deploy_jobs (multi_template storage_class duration) (node_range nodes) st
  = match run_kubectl_command ["apply"; "-f"; temp_node_file i]
            (write_file (temp_node_file i) (join (str_of_int i) parts) st1)
    with
    | (inl exit, st') => (exit, st')
    | (inr _, st') =>
        deploy_jobs (multi_template storage_class duration) l2
          (remove (temp_node_file i) st')
    end
  /\ forall e w,
      subprocess_run ["kubectl"; "apply"; "-f"; temp_node_file i] (world st1)
      = (CalledProcessError e, w) ->
      multi nodes storage_class duration dir st
      = (Exit 1,
         MkState w
           (<[temp_node_file i := join (str_of_int i) parts]> (files st1))).
Proof.
  intros Ht Hp Hr D1.
  pose proof (replace_join "$" "{NODE_NUM}" (str_of_int i) parts Hp) as J.
  split.
  - rewrite Hr, (deploy_jobs_app _ _ _ _ _ _ _ D1). cbn [Cli.deploy_jobs].
    now rewrite Ht, J.
  - intros e w R.
    rewrite (multi_rejected_at _ _ _ nodes storage_class duration dir
               st st1 l1 l2 i e w Hr D1 R).
    now rewrite Ht, J.
Qed.
End Manifests.

Lemma node_manifest_fills_every_placeholder_witness :
  Cli.multi unit cp_reject_second
    (fun _ => "name: job-${NODE_NUM}; label: node-${NODE_NUM}.")
    2 "fast" 30 "results" st0
  = (Exit 1,
     MkState tt
       {[ "temp_node_2.yaml" := "name: job-2; label: node-2." ]}).
Proof.
  rewrite (proj2 (node_manifest_fills_every_placeholder unit cp_reject_second
                    (fun _ => "name: job-${NODE_NUM}; label: node-${NODE_NUM}.")
                    2 "fast" 30 "results" st0 st0
                    ["name: job-"; "; label: node-"; "."] [1%Z] [] 2
                    eq_refl
                    ltac:(repeat constructor)
                    eq_refl eq_refl)
             "forbidden" tt eq_refl).
  vm_compute. reflexivity.
Defined.
End ManifestMore.

(** ** Further facts about the processing pass *)
Module PassMore.
Import Text Re Py Num Dict ParseResults.
Import TextFacts ReFacts DictFacts ParseResultsFacts TextMore.
Import Samples.

(** X12: the artifact that the orchestrator writes for worker [n] is named
    [node-<n>.txt]; the processing pass takes a file of that name for an
    artifact and derives from the name the worker id [<n>], the decimal text
    of [n]. *)
Theorem artifact_name_round_trip (n : Z) (dir : string) :
  Cli.node_file dir n
  = Cli.path_div dir ("node-" +:+ str_of_int n +:+ ".txt")
  /\ is_node_file ("node-" +:+ str_of_int n +:+ ".txt") = true
  /\ node_id_of ("node-" +:+ str_of_int n +:+ ".txt") = str_of_int n.
Proof.
  pose proof (str_of_int_numeric n) as Hn.
  split; [reflexivity |]. split.
  - unfold is_node_file. rewrite startswith_append.
    change ("node-" +:+ str_of_int n +:+ ".txt")
      with ("node-" +:+ (str_of_int n +:+ ".txt")).
    now rewrite <- append_assoc, endswith_append.
  - unfold node_id_of.
    change ("node-" +:+ str_of_int n +:+ ".txt")
      with ("node-" +:+ (str_of_int n +:+ ".txt")).
    rewrite replace_head by discriminate.
    rewrite (replace_absent "n" "ode-").
    + cbn [String.append]. rewrite (replace_passes "." "txt").
      * change (replace ".txt" ".txt" "") with "". apply append_nil_r.
      * now apply (all_in_count _ _ _ Hn).
    + rewrite count_char_append, (all_in_count _ _ _ Hn); reflexivity.
Qed.

Lemma omap_length_le {A B : Type} (f : A -> option B) (l : list A) :
  length (omap f l) <= length l.
Proof.
  induction l as [|x l IH]; [reflexivity |].
  cbn [omap list_omap]. destruct (f x); simpl; lia.
Qed.

Lemma omap_length_lt {A B : Type} (f : A -> option B) (l : list A) (x : A) :
  In x l -> f x = None -> length (omap f l) < length l.
Proof.
  induction l as [|y l IH]; intros Hin Hx; [destruct Hin |].
  cbn [omap list_omap]. destruct Hin as [->|Hin].
  - rewrite Hx. pose proof (omap_length_le f l). simpl. lia.
  - specialize (IH Hin Hx). destruct (f y); simpl; lia.
Qed.

Section Pass.
Variable BASE_DIR : string.

(** The record of one artifact of the pass, if its extraction returns. *)
Abbreviation record_of fs f :=
  (match parse_result_file fs (path_join (RESULTS_DIR BASE_DIR) f)
           "benchmark-01" (node_id_of f) with
   | Return result => Some result
   | Raise _ => None
   end).

Lemma process_node_files_omap fs node_files all_results :
  process_node_files BASE_DIR fs node_files all_results
  = (all_results ++ omap (fun f => record_of fs f) node_files)%list.
Proof.
  revert all_results.
  induction node_files as [|f rest IH]; intros all; simpl.
  - now rewrite app_nil_r.
  - fold (node_id_of f).
    destruct (parse_result_file _ _ _ _) as [result|e]; rewrite IH.
    + now rewrite <- app_assoc.
    + reflexivity.
Qed.

(** X13: the records of a pass are those of the artifacts of the listing
    whose extraction returns, in the order of the listing: an artifact that
    cannot be read, or whose extraction raises, is left out and the pass
    goes on with the next one, so there are at most as many records as
    artifacts. *)
Theorem records_of_readable_artifacts fs names :
  listdir fs (RESULTS_DIR BASE_DIR) = Return names ->
  process_benchmark_results BASE_DIR fs
  = Return (omap (fun f => record_of fs f) (filter is_node_file names))
  /\ forall results,
      process_benchmark_results BASE_DIR fs = Return results ->
      length results <= length (filter is_node_file names)
      /\ (forall f e,
             In f names -> is_node_file f = true ->
             read_text fs (path_join (RESULTS_DIR BASE_DIR) f) = Raise e ->
             length results < length (filter is_node_file names)).
Proof.
  intros HL.
  assert (process_benchmark_results BASE_DIR fs
          = Return (omap (fun f => record_of fs f) (filter is_node_file names)))
    as E.
  { unfold process_benchmark_results, bind. rewrite HL.
    now rewrite process_node_files_omap. }
  split; [exact E |]. intros results H. rewrite E in H.
  apply PyFacts.Return_inj in H. subst results. split.
  - apply omap_length_le.
  - intros f e Hf Hn Hr.
    apply (omap_length_lt _ _ f).
    { apply list_elem_of_In, list_elem_of_filter. split.
      - now rewrite Hn.
      - now apply list_elem_of_In. }
    unfold parse_result_file, bind. now rewrite Hr.
Qed.

(** X14: a name of the listing that is not the name of an artifact is
    never read: the records of the pass are the same with and without
    it. *)
Theorem non_artifact_ignored fs names1 names2 name :
  is_node_file name = false ->
  listdir fs (RESULTS_DIR BASE_DIR) = Return (names1 ++ name :: names2)%list ->
  process_benchmark_results BASE_DIR fs
  = process_benchmark_results BASE_DIR
      (MkFs (fun _ => Return (names1 ++ names2)%list) (read_text fs)).
Proof.
  intros Hn HL. unfold process_benchmark_results, bind. rewrite HL.
  cbn [listdir]. f_equal.
  rewrite !process_node_files_omap. cbn [read_text]. f_equal. f_equal.
  rewrite !filter_app. f_equal. apply filter_cons_False.
  unfold is_node_file in Hn. cbv beta. rewrite Hn. exact id.
Qed.
End Pass.

Lemma records_of_readable_artifacts_witness :
  exists results,
    process_benchmark_results "/opt/splitbench" fs_one = Return results
    /\ length results <= 1.
Proof.
  destruct (records_of_readable_artifacts
              "/opt/splitbench" fs_one ["node-1.txt"; "notes.md"] eq_refl)
    as [E H].
  eexists. split; [exact E |]. apply (proj1 (H _ E)).
Defined.

(** The artifact of the single-node mode is not an artifact of the pass. *)
Lemma non_artifact_ignored_witness :
  process_benchmark_results "/opt/splitbench"
    (MkFs (fun _ => Return ["node-1.txt"; "single-node.txt"])
          (fun _ => Return report))
  = process_benchmark_results "/opt/splitbench"
      (MkFs (fun _ => Return ["node-1.txt"]) (fun _ => Return report)).
Proof.
  apply (non_artifact_ignored "/opt/splitbench"
           (MkFs (fun _ => Return ["node-1.txt"; "single-node.txt"])
                 (fun _ => Return report))
           ["node-1.txt"] [] "single-node.txt"); reflexivity.
Defined.
End PassMore.

(** ** Further facts about records and the CSV files *)
Module RecordMore.
Import Text Re Py Num Dict ParseResults.
Import TextFacts ReFacts DictFacts ParseResultsFacts TextMore.
Import Samples.

(** *** The order of the fields *)

Lemma keys_within (ks : list string) (d : dict) :
  (forall k, has_key ks k = false -> get k d = None) ->
  forall k, In k (keys d) -> In k ks.
Proof.
  intros H k Hk. destruct (has_key ks k) eqn:E.
  - unfold has_key in E. apply existsb_exists in E as (x & Hx & Ex).
    apply String.eqb_eq in Ex. now subst.
  - apply H, get_None_keys in E. contradiction.
Qed.

(** [d.update(d2)] with keys that [d] does not hold appends them. *)
Lemma keys_update_fresh (d d2 : dict) :
  NoDup (keys d2) ->
  (forall k, In k (keys d2) -> get k d = None) ->
  keys (update d d2) = (keys d ++ keys d2)%list.
Proof.
  unfold update. revert d.
  induction d2 as [|[k v] d2 IH]; intros d Hnd Hfresh; simpl.
  - now rewrite app_nil_r.
  - simpl in Hnd. apply NoDup_cons in Hnd as [Hk Hnd].
    rewrite IH; [| exact Hnd |].
    + rewrite keys_set. unfold mem. rewrite (Hfresh k) by now left.
      now rewrite <- app_assoc.
    + intros k' Hk'. rewrite get_set.
      destruct (String.eqb_spec k k') as [->|_].
      * exfalso. apply Hk. now apply list_elem_of_In.
      * apply Hfresh. now right.
Qed.

Lemma parse_input_parameters_order c params :
  parse_input_parameters c = Return params -> sublist (keys params) input_keys.
Proof.
  unfold parse_input_parameters, bind.
  repeat match goal with
    | |- context [search ?r c] => destruct (search r c)
    | |- context [int ?s] => destruct (int s)
    | |- context [div_gib ?n] => destruct (div_gib n)
    end;
    intros [= <-]; cbn [keys map fst]; unfold input_keys;
    repeat first [apply sublist_nil | apply sublist_skip | apply sublist_cons].
Qed.

Lemma parse_latency_percentiles_order c :
  sublist (keys (parse_latency_percentiles c)) latency_keys.
Proof.
  unfold parse_latency_percentiles, latency_keys, percentile_labels.
  destruct (search latency_section_re c) as [sec|];
    [| apply sublist_nil_l].
  cbn [fold_left]. unfold add_percentile.
  repeat match goal with
    | |- context [search ?r (whole sec)] => destruct (search r (whole sec))
    end;
    vm_compute;
    repeat first [apply sublist_nil | apply sublist_skip | apply sublist_cons].
Qed.

Lemma parse_cpu_usage_order c : sublist (keys (parse_cpu_usage c)) cpu_keys.
Proof.
  destruct (parse_cpu_usage_all_or_none c) as [->| ->];
    [apply sublist_nil_l | reflexivity].
Qed.

Lemma parse_io_stats_order c io_type :
  sublist (keys (parse_io_stats c io_type)) (io_keys io_type).
Proof.
  destruct (parse_io_stats_all_or_none c io_type) as [->| ->];
    [apply sublist_nil_l | reflexivity].
Qed.

Ltac fresh_keys content Gx Hforeign :=
  let k := fresh "k" in
  let Hk := fresh "Hk" in
  intros k Hk; apply (keys_within _ _ Hforeign) in Hk;
  unfold input_keys in Hk; each_key Hk;
  rewrite ?get_update_or_else
    by auto using parse_latency_percentiles_NoDup, parse_io_stats_NoDup,
         parse_cpu_usage_NoDup, parse_system_info_NoDup;
  drop_foreign content Gx; reflexivity.

(** The fields of a record: the leading ones, then what each extractor
    gave, in the order of the calls. *)
Lemma parse_result_file_keys fs path b n result :
  parse_result_file fs path b n = Return result ->
  exists content params,
    read_text fs path = Return content
    /\ parse_input_parameters content = Return params
    /\ keys result
       = (leading_keys ++ keys params ++ keys (parse_cpu_usage content)
          ++ keys (parse_io_stats content "Total")
          ++ keys (parse_io_stats content "Read")
          ++ keys (parse_io_stats content "Write")
          ++ keys (parse_latency_percentiles content))%list.
Proof.
  unfold parse_result_file, bind.
  destruct (read_text fs path) as [content|]; [| discriminate].
  destruct (parse_input_parameters content) as [params|] eqn:P; [| discriminate].
  intros H. apply PyFacts.Return_inj in H. subst result.
  exists content, params. split; [reflexivity |]. split; [exact P |].
  destruct (parse_input_parameters_get _ _ P) as (_ & _ & _ & _ & _ & _ & Gx).
  pose proof (parse_input_parameters_NoDup _ _ P) as Np.
  rewrite (keys_update_fresh _ (parse_latency_percentiles content));
    [| apply parse_latency_percentiles_NoDup
     | fresh_keys content Gx (parse_latency_percentiles_foreign content)].
  rewrite (keys_update_fresh _ (parse_io_stats content "Write"));
    [| apply parse_io_stats_NoDup
     | fresh_keys content Gx (parse_io_stats_foreign content "Write")].
  rewrite (keys_update_fresh _ (parse_io_stats content "Read"));
    [| apply parse_io_stats_NoDup
     | fresh_keys content Gx (parse_io_stats_foreign content "Read")].
  rewrite (keys_update_fresh _ (parse_io_stats content "Total"));
    [| apply parse_io_stats_NoDup
     | fresh_keys content Gx (parse_io_stats_foreign content "Total")].
  rewrite (keys_update_fresh _ (parse_cpu_usage content));
    [| apply parse_cpu_usage_NoDup
     | fresh_keys content Gx (parse_cpu_usage_foreign content)].
  rewrite (keys_update_fresh _ params);
    [| exact Np | fresh_keys content Gx Gx].
  rewrite <- !app_assoc. reflexivity.
Qed.

(** X15: the fields of every record come in one fixed order: first the
    five fields that every record holds (benchmark id, worker id, command
    line, processor count, caching options), then those of the fields of the
    input parameters, of the CPU usage, of the three I/O categories and of
    the latency percentiles that the text gave, each at most once.  So two
    records never disagree on the order of two columns. *)
Theorem record_fields_in_fixed_order fs path benchmark_id node_id result :
  parse_result_file fs path benchmark_id node_id = Return result ->
  (exists rest, keys result = (leading_keys ++ rest)%list)
  /\ sublist (keys result) all_keys
  /\ NoDup (keys result).
Proof.
  intros H.
  destruct (parse_result_file_keys _ _ _ _ _ H)
    as (content & params & _ & P & K).
  assert (sublist (keys result) all_keys) as S.
  { rewrite K. unfold all_keys.
    repeat apply sublist_app; try reflexivity;
      eauto using parse_input_parameters_order, parse_cpu_usage_order,
        parse_io_stats_order, parse_latency_percentiles_order. }
  split; [rewrite K; eauto |]. split; [exact S |].
  apply (sublist_NoDup _ all_keys); [| exact S].
  apply (bool_decide_unpack _). vm_compute. reflexivity.
Qed.

Lemma record_fields_in_fixed_order_witness :
  exists result,
    parse_result_file fs_one "results/node-1.txt" "benchmark-01" "1"
    = Return result
    /\ sublist (keys result) all_keys.
Proof.
  destruct (parse_result_file fs_one "results/node-1.txt" "benchmark-01" "1")
    as [result|e] eqn:E.
  - exists result. split; [reflexivity |].
    now apply (record_fields_in_fixed_order
                 fs_one "results/node-1.txt" "benchmark-01" "1" result E).
  - vm_compute in E. discriminate.
Defined.
End RecordMore.

(** ** Further facts about the CSV files *)
Module CsvMore.
Import Text Re Py Num Dict ParseResults.
Import TextFacts ReFacts DictFacts ParseResultsFacts TextMore.
Import Samples.

Lemma csv_row_fits (fieldnames : list string) (row : dict) :
  csv_row fieldnames row
  = if fits fieldnames row then Return (row_cells fieldnames row)
    else Raise ValueError.
Proof. reflexivity. Qed.

Lemma fits_self (row : dict) : fits (keys row) row = true.
Proof.
  unfold fits. apply forallb_forall. intros k Hk.
  apply existsb_exists. exists k. split; [exact Hk | apply String.eqb_refl].
Qed.

(** A row with a field that the header lacks does not fit. *)
Lemma extra_field_misfit (fieldnames : list string) (row : dict) (k v : string) :
  get k row = Some v -> ~ In k fieldnames -> fits fieldnames row = false.
Proof.
  intros Hk Hn. destruct (fits fieldnames row) eqn:E; [| reflexivity].
  exfalso. unfold fits in E.
  assert (In k (keys row)) as Hin.
  { destruct (in_dec string_dec k (keys row)) as [|Hno]; [assumption |].
    apply get_None_keys in Hno. congruence. }
  apply (proj1 (forallb_forall _ _) E) in Hin.
  apply existsb_exists in Hin as (x & Hx & Ex).
  apply String.eqb_eq in Ex. now subst.
Qed.

Lemma writerows_fit (fieldnames : list string) (rows : list dict)
      (written : csv_file) :
  Forall (fun row => fits fieldnames row = true) rows ->
  writerows fieldnames rows written
  = (Return tt, (written ++ map (row_cells fieldnames) rows)%list).
Proof.
  revert written. induction rows as [|row rows IH]; intros written H; simpl.
  - now rewrite app_nil_r.
  - apply Forall_cons in H as [Hr H]. rewrite csv_row_fits, Hr, (IH _ H).
    now rewrite <- app_assoc.
Qed.

Lemma writerows_misfit (fieldnames : list string) (good rest : list dict)
      (bad : dict) (written : csv_file) :
  Forall (fun row => fits fieldnames row = true) good ->
  fits fieldnames bad = false ->
  writerows fieldnames (good ++ bad :: rest) written
  = (Raise ValueError, (written ++ map (row_cells fieldnames) good)%list).
Proof.
  revert written. induction good as [|row good IH]; intros written H Hb; simpl.
  - now rewrite csv_row_fits, Hb, app_nil_r.
  - apply Forall_cons in H as [Hr H]. rewrite csv_row_fits, Hr, (IH _ H Hb).
    now rewrite <- app_assoc.
Qed.

Lemma row_cells_length (fieldnames : list string) (row : dict) :
  length (row_cells fieldnames row) = length fieldnames.
Proof. apply length_map. Qed.

Section Files.
Variable BASE_DIR : string.

Lemma write_summary_csv_fit (first : dict) (rest : list dict)
      (out : gmap string csv_file) :
  Forall (fun row => fits (keys first) row = true) rest ->
  write_summary_csv BASE_DIR (first :: rest) None out
  = (Return tt,
     <[summary_csv_path BASE_DIR (get_block_size_dir (first :: rest)) :=
         keys first :: map (row_cells (keys first)) (first :: rest)]> out).
Proof.
  intros H. unfold write_summary_csv, write_csv.
  rewrite writerows_fit; [reflexivity |].
  apply Forall_cons. split; [apply fits_self | exact H].
Qed.

Lemma process_benchmark_results_ids fs results :
  process_benchmark_results BASE_DIR fs = Return results ->
  Forall (fun r => get "benchmark_id" r = Some "benchmark-01") results.
Proof.
  unfold process_benchmark_results, bind.
  destruct (listdir fs _) as [names|]; [| discriminate].
  intros H. apply PyFacts.Return_inj in H. subst results.
  apply process_node_files_ids. constructor.
Qed.

(** X16: when every later record holds no field that the first record
    lacks, the summary file is written without an error: its header is the
    fields of the first record, in their order, and it has one row for each
    record, in their order, with as many cells as the header, the empty text
    standing for a field that a record does not hold; a field that a later
    record lacks is thus not an error. *)
Theorem summary_csv_rows (first : dict) (rest : list dict)
        (out : gmap string csv_file) :
  Forall (fun row => fits (keys first) row = true) rest ->
  write_summary_csv BASE_DIR (first :: rest) None out
  = (Return tt,
     <[summary_csv_path BASE_DIR (get_block_size_dir (first :: rest)) :=
         keys first :: map (row_cells (keys first)) (first :: rest)]> out)
  /\ Forall (fun cells => length cells = length (keys first))
       (keys first :: map (row_cells (keys first)) (first :: rest))
  /\ length (keys first :: map (row_cells (keys first)) (first :: rest))
     = S (length (first :: rest)).
Proof.
  intros H. split; [now apply write_summary_csv_fit |]. split.
  - apply Forall_cons. split; [reflexivity |].
    apply Forall_forall. intros cells Hc. apply list_elem_of_In in Hc.
    apply in_map_iff in Hc as (row & <- & _). apply row_cells_length.
  - simpl. now rewrite length_map.
Qed.

(** X17: when a later record holds a field that the first record lacks,
    the writer raises [ValueError] at that record: the summary file is left
    with the header and the rows of the records before it, and [main] ends
    with that error before any per-benchmark file is written. *)
Theorem extra_field_aborts (first bad : dict) (good rest : list dict)
        (k v : string) (out : gmap string csv_file) :
  Forall (fun row => fits (keys first) row = true) good ->
  get k bad = Some v ->
  get k first = None ->
  write_summary_csv BASE_DIR (first :: good ++ bad :: rest) None out
  = (Raise ValueError,
     <[summary_csv_path BASE_DIR
         (get_block_size_dir (first :: good ++ bad :: rest)) :=
         keys first :: map (row_cells (keys first)) (first :: good)]> out)
  /\ forall fs,
      process_benchmark_results BASE_DIR fs
      = Return (first :: good ++ bad :: rest) ->
      main BASE_DIR fs out
      = (Raise ValueError,
         <[summary_csv_path BASE_DIR
             (get_block_size_dir (first :: good ++ bad :: rest)) :=
             keys first :: map (row_cells (keys first)) (first :: good)]> out).
Proof.
  intros Hg Hk Hf.
  assert (write_summary_csv BASE_DIR (first :: good ++ bad :: rest) None out
          = (Raise ValueError,
             <[summary_csv_path BASE_DIR
                 (get_block_size_dir (first :: good ++ bad :: rest)) :=
                 keys first :: map (row_cells (keys first)) (first :: good)]>
               out)) as E.
  { assert (Forall (fun row => fits (keys first) row = true) (first :: good))
      as Hfg by (apply Forall_cons; split; [apply fits_self | exact Hg]).
    assert (fits (keys first) bad = false) as Hb
        by (apply (extra_field_misfit _ _ k v Hk); now apply get_None_keys).
    pose proof (writerows_misfit (keys first) (first :: good) rest bad
                  [keys first] Hfg Hb) as W.
    cbn [app] in W. unfold write_summary_csv, write_csv. now rewrite W. }
  split; [exact E |].
  intros fs H. unfold main. rewrite H.
  change (match (first :: good ++ bad :: rest)%list with
          | [] => (Return tt, out)
          | _ :: _ =>
              match write_summary_csv BASE_DIR
                      (first :: good ++ bad :: rest) None out with
              | (Return _, out') =>
                  write_benchmark_specific_csvs BASE_DIR
                    (first :: good ++ bad :: rest) out'
              | (Raise e, out') => (Raise e, out')
              end
          end
          = (Raise ValueError,
             <[summary_csv_path BASE_DIR
                 (get_block_size_dir (first :: good ++ bad :: rest)) :=
                 keys first :: map (row_cells (keys first)) (first :: good)]>
               out)).
  cbv iota. now rewrite E.
Qed.

(** X18: when the pass gives records of which no later one holds a field
    that the first lacks, [main] ends without an error and writes two files
    into the directory of the block size, the summary file and the file of
    the benchmark "benchmark-01"; both hold the same header and the same
    rows. *)
Theorem main_writes_two_equal_files fs (first : dict) (rest : list dict)
        (out : gmap string csv_file) :
  process_benchmark_results BASE_DIR fs = Return (first :: rest) ->
  Forall (fun row => fits (keys first) row = true) rest ->
  main BASE_DIR fs out
  = (Return tt,
     <[benchmark_csv_path BASE_DIR (get_block_size_dir (first :: rest))
         "benchmark-01" :=
         keys first :: map (row_cells (keys first)) (first :: rest)]>
       (<[summary_csv_path BASE_DIR (get_block_size_dir (first :: rest)) :=
            keys first :: map (row_cells (keys first)) (first :: rest)]> out)).
Proof.
  intros H Hfit. pose proof (process_benchmark_results_ids _ _ H) as Hid.
  unfold main. rewrite H. cbv iota.
  rewrite (write_summary_csv_fit _ _ _ Hfit).
  unfold write_benchmark_specific_csvs.
  rewrite (group_results_nonempty _ _ _ Hid).
  cbn [write_groups]. unfold write_csv.
  rewrite writerows_fit; [reflexivity |].
  apply Forall_cons. split; [apply fits_self | exact Hfit].
Qed.

(** The rows are written up to the first that does not fit the header. *)
Lemma writerows_status (fieldnames : list string) (rows : list dict)
      (written : csv_file) :
  fst (writerows fieldnames rows written)
  = if forallb (fits fieldnames) rows then Return tt else Raise ValueError.
Proof.
  revert written. induction rows as [|row rows IH]; intros written; simpl.
  - reflexivity.
  - rewrite csv_row_fits. destruct (fits fieldnames row); simpl; [apply IH |].
    reflexivity.
Qed.

Lemma write_summary_csv_status (first : dict) (rest : list dict)
      (out : gmap string csv_file) :
  fst (write_summary_csv BASE_DIR (first :: rest) None out)
  = if forallb (fits (keys first)) rest then Return tt else Raise ValueError.
Proof.
  unfold write_summary_csv, write_csv.
  pose proof (writerows_status (keys first) (first :: rest) [keys first]) as W.
  destruct (writerows _ _ _) as [res content]. simpl in *.
  now rewrite fits_self in W.
Qed.

Lemma write_summary_csv_dom (first : dict) (rest : list dict)
      (out : gmap string csv_file) :
  dom (snd (write_summary_csv BASE_DIR (first :: rest) None out))
  = {[summary_csv_path BASE_DIR (get_block_size_dir (first :: rest))]}
    ∪ dom out.
Proof. unfold write_summary_csv. apply write_csv_dom. Qed.

Lemma write_summary_csv_other (first : dict) (rest : list dict)
      (out : gmap string csv_file) (p : string) :
  p <> summary_csv_path BASE_DIR (get_block_size_dir (first :: rest)) ->
  snd (write_summary_csv BASE_DIR (first :: rest) None out) !! p = out !! p.
Proof.
  intros Hp. unfold write_summary_csv, write_csv.
  destruct (writerows _ _ _) as [res content]. simpl.
  now apply lookup_insert_ne, not_eq_sym.
Qed.

(** The summary file and the file of the benchmark "benchmark-01" are
    different files. *)
Lemma csv_paths_differ (name : string) :
  benchmark_csv_path BASE_DIR name "benchmark-01"
  <> summary_csv_path BASE_DIR name.
Proof.
  unfold benchmark_csv_path, summary_csv_path.
  set (dir := path_join (VM_SIZE_DIR BASE_DIR) name).
  assert (forall pre,
             pre +:+ ("benchmark_" +:+ "benchmark-01" +:+ "_" +:+ name
                      +:+ ".csv")
             <> pre +:+ ("benchmark_summary_" +:+ name +:+ ".csv")) as D.
  { intros pre H. apply append_inj_l in H. simpl in H. discriminate. }
  unfold path_join.
  repeat match goal with
    | |- context [startswith ?x "/"] =>
        replace (startswith x "/") with false by (lazy; reflexivity)
    end.
  destruct (_ || _); [apply D |].
  intros H. apply append_inj_l in H. exact (D "/" H).
Qed.

(** C10 (as amended): every record of the processing pass carries the
    benchmark id "benchmark-01"; so whenever at least one record was parsed,
    grouping by benchmark id gives exactly one group, which holds all the
    records in order, and the per-benchmark writer writes to exactly one
    file, that of "benchmark-01".  In a run of [main] that file is written,
    next to the summary file, when no later record holds a field that the
    first record lacks; when one does, [main] ends with [ValueError] in the
    state that the summary writer left, and no per-benchmark file is
    written; when no record was parsed there is no group and [main] writes
    no file. *)
Theorem one_benchmark_group fs results (out : gmap string csv_file) :
  process_benchmark_results BASE_DIR fs = Return results ->
  Forall (fun r => get "benchmark_id" r = Some "benchmark-01") results
  /\ (results = [] ->
      group_results results [] = Return []
      /\ write_benchmark_specific_csvs BASE_DIR results out = (Return tt, out)
      /\ main BASE_DIR fs out = (Return tt, out))
  /\ (forall first rest, results = first :: rest ->
      group_results results [] = Return [("benchmark-01", results)]
      /\ dom (snd (write_benchmark_specific_csvs BASE_DIR results out))
         = {[benchmark_csv_path BASE_DIR (get_block_size_dir results)
               "benchmark-01"]} ∪ dom out
      /\ (forallb (fits (keys first)) rest = true ->
          fst (main BASE_DIR fs out) = Return tt
          /\ dom (snd (main BASE_DIR fs out))
             = {[benchmark_csv_path BASE_DIR (get_block_size_dir results)
                   "benchmark-01"]}
               ∪ ({[summary_csv_path BASE_DIR (get_block_size_dir results)]}
                  ∪ dom out))
      /\ (forallb (fits (keys first)) rest = false ->
          main BASE_DIR fs out
          = (Raise ValueError,
             snd (write_summary_csv BASE_DIR results None out))
          /\ dom (snd (main BASE_DIR fs out))
             = {[summary_csv_path BASE_DIR (get_block_size_dir results)]}
               ∪ dom out
          /\ snd (main BASE_DIR fs out)
             !! benchmark_csv_path BASE_DIR (get_block_size_dir results)
                  "benchmark-01"
             = out !! benchmark_csv_path BASE_DIR (get_block_size_dir results)
                        "benchmark-01")).
Proof.
  intros H.
  destruct (one_group_one_file BASE_DIR fs results H) as (Hid & Hne & Hnil).
  split; [exact Hid |]. split.
  - intros ->. destruct (Hnil eq_refl) as [G W].
    split; [exact G |]. split; [apply W |]. unfold main. now rewrite H.
  - intros first rest ->.
    destruct (Hne ltac:(discriminate)) as [G W].
    split; [exact G |]. split; [apply W |]. split.
    + intros Hfit.
      assert (Forall (fun row => fits (keys first) row = true) rest) as Hf
          by (apply Forall_forall; intros row Hr;
              apply (proj1 (forallb_forall _ _) Hfit);
              now apply list_elem_of_In).
      unfold main. rewrite H. cbv iota.
      rewrite (write_summary_csv_fit _ _ _ Hf).
      unfold write_benchmark_specific_csvs. rewrite G.
      cbn [write_groups]. unfold write_csv.
      rewrite writerows_fit
        by (apply Forall_cons; split; [apply fits_self | exact Hf]).
      split; [reflexivity |]. simpl. now rewrite !dom_insert_L.
    + intros Hfit.
      pose proof (write_summary_csv_status first rest out) as S.
      rewrite Hfit in S.
      assert (main BASE_DIR fs out
              = (Raise ValueError,
                 snd (write_summary_csv BASE_DIR (first :: rest) None out)))
        as M.
      { unfold main. rewrite H. cbv iota.
        destruct (write_summary_csv BASE_DIR (first :: rest) None out)
          as [res out'].
        simpl in S. now subst res. }
      split; [exact M |]. rewrite M. cbn [snd]. split.
      * apply write_summary_csv_dom.
      * apply write_summary_csv_other, csv_paths_differ.
Qed.
End Files.

Lemma one_benchmark_group_witness :
  match process_benchmark_results "/opt/splitbench" fs_one with
  | Return results =>
      results <> []
      /\ group_results results [] = Return [("benchmark-01", results)]
      /\ fst (main "/opt/splitbench" fs_one ∅) = Return tt
  | Raise _ => False
  end.
Proof.
  destruct (process_benchmark_results "/opt/splitbench" fs_one)
    as [[|first rest]|e] eqn:E.
  - vm_compute in E. discriminate.
  - assert (rest = []) as ->.
    { vm_compute in E. apply PyFacts.Return_inj in E. now injection E as _ <-. }
    destruct (proj2 (proj2 (one_benchmark_group "/opt/splitbench" fs_one
                              [first] ∅ E)) first [] eq_refl)
      as (G & _ & Hfit & _).
    split; [discriminate |]. split; [exact G |]. now apply Hfit.
  - vm_compute in E. discriminate.
Defined.

Lemma summary_csv_rows_witness :
  write_summary_csv "/opt/splitbench" [record_a; record_b] None ∅
  = (Return tt,
     {[ summary_csv_path "/opt/splitbench" "4K" :=
        [["benchmark_id"; "node_id"; "block_size"];
         ["benchmark-01"; "1"; "4"];
         ["benchmark-01"; "2"; ""]] ]}).
Proof.
  apply (proj1 (summary_csv_rows "/opt/splitbench" record_a [record_b] ∅
                  ltac:(repeat constructor))).
Defined.

Lemma extra_field_aborts_witness :
  write_summary_csv "/opt/splitbench" [record_b; record_c] None ∅
  = (Raise ValueError,
     {[ summary_csv_path "/opt/splitbench" "unknown_block_size" :=
        [["benchmark_id"; "node_id"]; ["benchmark-01"; "2"]] ]}).
Proof.
  apply (proj1 (extra_field_aborts "/opt/splitbench" record_b record_c [] []
                  "latency_min" "0.1" ∅ (List.Forall_nil _) eq_refl eq_refl)).
Defined.

Lemma main_writes_two_equal_files_witness :
  fst (main "/opt/splitbench" fs_one ∅) = Return tt.
Proof.
  destruct (process_benchmark_results "/opt/splitbench" fs_one)
    as [[|first rest]|e] eqn:E.
  - vm_compute in E. discriminate.
  - assert (rest = []) as ->.
    { vm_compute in E. apply PyFacts.Return_inj in E. now injection E as _ <-. }
    now rewrite (main_writes_two_equal_files "/opt/splitbench" fs_one first []
                   ∅ E (List.Forall_nil _)).
  - vm_compute in E. discriminate.
Defined.
End CsvMore.

(** ** Further facts about the extractors *)
Module ExtractMore.
Import Text Re Py Num Dict ParseResults.
Import TextFacts ReFacts DictFacts ParseResultsFacts TextMore.
Import Samples.

(** *** Greedy repetition and the leftmost match *)

(** Greedy repetition takes a whole run of the class when the continuation
    accepts what follows the run. *)
Lemma star_greedy_run {A : Type} cl w s' (k : string -> option A) x :
  all_in cl w = true -> stops cl s' -> k s' = Some x ->
  star_greedy cl (w +:+ s') k = Some x.
Proof.
  intros Hw Hs Hk. induction w as [|c w IH]; simpl.
  - destruct s' as [|c s']; simpl in *; [exact Hk | now rewrite Hs].
  - simpl in Hw. apply andb_prop in Hw as [Hc Hw]. now rewrite Hc, (IH Hw).
Qed.

Lemma search_here r s m : match_at r s = Some m -> search r s = Some m.
Proof. intros H. destruct s; simpl; now rewrite H. Qed.

(** A pattern that starts with a literal is not found in a text without the
    first character of the literal; the search passes over such a text. *)
Lemma search_passes (c : ascii) (l : string) (r : regex) (pre s : string) :
  count_char c pre = 0 ->
  search (RSeq (RLit (String c l)) r) (pre +:+ String c s)
  = search (RSeq (RLit (String c l)) r) (String c s).
Proof.
  induction pre as [|a pre IH]; intros H; [reflexivity |].
  simpl in H. destruct (Ascii.eqb_spec a c) as [->|Hne]; [discriminate |].
  change (String a pre +:+ String c s) with (String a (pre +:+ String c s)).
  cbn [search]. unfold match_at at 1. cbn [rmatch strip_prefix].
  destruct (Ascii.eqb_spec c a) as [->|_]; [congruence |]. now apply IH.
Qed.

Lemma all_in_not_newline (l : string) :
  count_char newline l = 0 -> all_in CDot l = true.
Proof.
  induction l as [|a l IH]; intros H; [reflexivity |].
  simpl in *. destruct (Ascii.eqb_spec a newline) as [->|Hne]; [discriminate |].
  rewrite (IH H). now destruct (Ascii.eqb_spec a newline).
Qed.

(** X19: in a text with no capital C before the first "Command Line: ",
    the command line is everything between that prefix and the end of its
    line: the next newline, or the end of the text. *)
Theorem command_line_is_rest_of_line (pre l rest : string) :
  count_char "C" pre = 0 ->
  count_char newline l = 0 ->
  stops CDot rest ->
  parse_command_line (pre +:+ "Command Line: " +:+ l +:+ rest) = l.
Proof.
  intros Hpre Hl Hrest. unfold parse_command_line, command_line_re.
  cbn [rseq].
  change (pre +:+ "Command Line: " +:+ l +:+ rest)
    with (pre +:+ String "C" ("ommand Line: " +:+ (l +:+ rest))).
  rewrite search_passes by exact Hpre.
  assert (match_at
            (RSeq (RLit "Command Line: ") (RGroup 1 (RStar CDot)))
            ("Command Line: " +:+ (l +:+ rest))
          = Some (MkMatch
                    (consumed ("Command Line: " +:+ (l +:+ rest)) rest)
                    [(1, l)])) as M.
  { unfold match_at. cbn [rmatch]. rewrite strip_prefix_append.
    erewrite star_greedy_run;
      [| now apply all_in_not_newline | exact Hrest | reflexivity].
    now rewrite consumed_append. }
  change (String "C" ("ommand Line: " +:+ (l +:+ rest)))
    with ("Command Line: " +:+ (l +:+ rest)).
  now rewrite (search_here _ _ _ M).
Qed.

Lemma command_line_is_rest_of_line_witness :
  parse_command_line
    ("starting diskspd" +:+ Cli.nl +:+ "Command Line: " +:+ "diskspd -b4K"
     +:+ (Cli.nl +:+ "Input parameters:"))
  = "diskspd -b4K".
Proof.
  apply (command_line_is_rest_of_line
           ("starting diskspd" +:+ Cli.nl) "diskspd -b4K"
           (Cli.nl +:+ "Input parameters:")); reflexivity.
Defined.

(** *** The values of the fields *)

Lemma digits_are_number (v : string) : is_digits v -> is_number v.
Proof.
  intros [Hne Hd]. split; [exact Hne |].
  clear Hne. induction v as [|c v IH]; [reflexivity |].
  simpl in *. apply andb_prop in Hd as [Hc Hd]. now rewrite Hc, (IH Hd).
Qed.

(** X20: the values of the input parameters are well formed: the duration,
    the block size, the count of outstanding I/O operations and the count of
    threads are non-empty texts of digits, and the I/O type is "random" or
    "sequential". *)
Theorem input_parameter_values c params :
  parse_input_parameters c = Return params ->
  (forall k v,
      In k ["duration"; "block_size"; "outstanding_io"; "threads"] ->
      get k params = Some v -> is_digits v)
  /\ (forall v, get "io_type" params = Some v ->
                v = "random" \/ v = "sequential").
Proof.
  intros P.
  destruct (parse_input_parameters_get _ _ P) as (Gd & Gb & Go & Gt & _ & Gi & _).
  split.
  - intros k v Hk Hv. cbn [In] in Hk.
    destruct Hk as [<-|[<-|[<-|[<-|[]]]]].
    + rewrite Gd in Hv. destruct (search duration_re c) as [m|] eqn:E;
        [| discriminate]. injection Hv as <-.
      apply (captured_digits duration_re c); [cbn [In]; tauto | exact E].
    + rewrite Gb in Hv. destruct (search block_size_re c) as [m|] eqn:E;
        [| discriminate]. injection Hv as <-.
      apply str_of_int_digits. apply Z.div_pos; [| lia].
      apply int_of_digits_nonneg.
      apply (captured_digits block_size_re c); [cbn [In]; tauto | exact E].
    + rewrite Go in Hv. destruct (search outstanding_io_re c) as [m|] eqn:E;
        [| discriminate]. injection Hv as <-.
      apply (captured_digits outstanding_io_re c); [cbn [In]; tauto | exact E].
    + rewrite Gt in Hv. destruct (search threads_re c) as [m|] eqn:E;
        [| discriminate]. injection Hv as <-.
      apply (captured_digits threads_re c); [cbn [In]; tauto | exact E].
  - intros v Hv. rewrite Gi in Hv.
    destruct (search io_type_re c) as [m|] eqn:E; [| discriminate].
    injection Hv as <-.
    pose proof (group_bound io_type_re c m 1 E eq_refl) as G.
    simpl in G. intuition.
Qed.

Lemma input_parameter_values_witness :
  exists params v,
    parse_input_parameters report = Return params
    /\ get "duration" params = Some v /\ is_digits v.
Proof.
  destruct (parse_input_parameters report) as [params|e] eqn:P.
  - assert (get "duration" params = Some "60") as G.
    { vm_compute in P. apply PyFacts.Return_inj in P. now subst params. }
    exists params, "60". split; [reflexivity |]. split; [exact G |].
    apply (proj1 (input_parameter_values report params P) "duration");
      [now left | exact G].
  - vm_compute in P. discriminate.
Defined.

Lemma cpu_group_number c m n :
  search cpu_re c = Some m -> In n [1; 2; 3; 4; 5] -> is_number (group m n).
Proof.
  intros E Hn.
  assert (binds n cpu_re = true) as Hb
      by (cbn [In] in Hn; decompose [or] Hn; subst; easy).
  pose proof (group_bound cpu_re c m n E Hb) as G.
  cbn [In] in Hn; decompose [or] Hn; subst; try contradiction;
    simpl in G; unfold is_number; intuition congruence.
Qed.

Lemma io_group_number c io_type m n :
  search (io_re io_type) c = Some m -> In n [1; 2; 3; 4; 5] ->
  is_number (group m n).
Proof.
  intros E Hn.
  assert (binds n (io_re io_type) = true) as Hb
      by (cbn [In] in Hn; decompose [or] Hn; subst; easy).
  pose proof (group_bound (io_re io_type) c m n E Hb) as G.
  cbn [In] in Hn; decompose [or] Hn; subst; try contradiction;
    simpl in G;
    first [solve [unfold is_number; intuition congruence]
          | apply digits_are_number; unfold is_digits; intuition congruence].
Qed.

Lemma percentile_group_number s p m :
  search (percentile_re p) s = Some m -> is_number (group m 1).
Proof.
  intros E.
  pose proof (group_bound (percentile_re p) s m 1 E eq_refl) as G.
  simpl in G. unfold is_number. intuition congruence.
Qed.

(** X21: every value of a CPU field, of a field of an I/O category and of
    a latency field is a non-empty text of digits and dots: what the
    extractors store is never empty and never holds a unit, a sign or a
    blank. *)
Theorem measured_values_are_numbers c k v :
  (get k (parse_cpu_usage c) = Some v -> is_number v)
  /\ (forall io_type, get k (parse_io_stats c io_type) = Some v -> is_number v)
  /\ (get k (parse_latency_percentiles c) = Some v -> is_number v).
Proof.
  split; [| split].
  - unfold parse_cpu_usage. destruct (search cpu_re c) as [m|] eqn:E;
      [| discriminate].
    cbn [get].
    repeat match goal with
      | |- context [String.eqb ?a k] => destruct (String.eqb a k)
      end; try discriminate; intros [= <-];
      apply (cpu_group_number c m _ E); cbn [In]; tauto.
  - intros io_type. unfold parse_io_stats.
    destruct (search (io_re io_type) c) as [m|] eqn:E; [| discriminate].
    cbn [get].
    repeat match goal with
      | |- context [String.eqb ?a k] => destruct (String.eqb a k)
      end; try discriminate; intros [= <-];
      apply (io_group_number c io_type m _ E); cbn [In]; tauto.
  - unfold parse_latency_percentiles.
    destruct (search latency_section_re c) as [sec|]; [| discriminate].
    unfold percentile_labels. cbn [fold_left]. unfold add_percentile.
    repeat match goal with
      | |- context [search ?r (whole sec)] =>
          let E := fresh "E" in destruct (search r (whole sec)) eqn:E
      end;
      rewrite ?get_set; cbn [get];
      repeat match goal with
        | |- context [String.eqb ?a k] => destruct (String.eqb a k)
        end; try discriminate; intros [= <-];
      eauto using percentile_group_number.
Qed.

Lemma measured_values_are_numbers_witness :
  exists v, get "cpu_user" (parse_cpu_usage report) = Some v /\ is_number v.
Proof.
  destruct (get "cpu_user" (parse_cpu_usage report)) as [v|] eqn:G.
  - exists v. split; [reflexivity |].
    apply (proj1 (measured_values_are_numbers report "cpu_user" v) G).
  - vm_compute in G. discriminate.
Defined.
End ExtractMore.

(** ** Further facts about the file size *)
Module SizeMore.
Import Text Re Py Num Dict ParseResults.
Import TextFacts ReFacts DictFacts ParseResultsFacts TextMore.
Import Samples.
Local Open Scope Z_scope.

(** An integer below [2^53] is a double. *)
Lemma round53_exact (n : Z) : 0 <= n < 2 ^ 53 -> round53 n = n.
Proof.
  intros [Hlo Hhi]. unfold round53.
  assert (Z.log2 n + 1 <= 53) as Hb.
  { destruct (Z.eq_dec n 0) as [->|Hne]; [simpl; lia |].
    assert (Z.log2 n < 53) by (apply Z.log2_lt_pow2; lia). lia. }
  apply Z.leb_le in Hb. now rewrite Hb.
Qed.

Lemma div_gib_exact (n : Z) :
  0 <= n < 2 ^ 53 -> div_gib n = Return (MkFloat n 30).
Proof.
  intros H. unfold div_gib. rewrite (round53_exact n H).
  assert (2 ^ 53 < 2 ^ 1054) by (apply Z.pow_lt_mono_r; lia).
  destruct (Z.leb_spec (2 ^ 1054) n); [lia | reflexivity].
Qed.

Lemma format_2f_whole (k : Z) :
  0 <= k -> format_2f (MkFloat (k * 2 ^ 30) 30) = str_of_int k +:+ ".00".
Proof.
  intros Hk. unfold format_2f. cbn [mant expo].
  assert (0 < 2 ^ 30) as Hd by lia.
  generalize dependent (2 ^ 30). intros d Hd.
  replace (k * d * 100) with (k * 100 * d) by lia.
  rewrite Z.div_mul, Z.mod_mul by lia.
  replace (d <? 2 * 0) with false by (symmetry; apply Z.ltb_ge; lia).
  replace (2 * 0 =? d) with false by (symmetry; apply Z.eqb_neq; lia).
  cbn [orb andb]. rewrite Z.div_mul, Z.mod_mul by lia. reflexivity.
Qed.

(** Rounding to a double does not go below the power of two under the
    integer. *)
Lemma round53_lower (n : Z) (e : Z) :
  53 <= e -> 2 ^ e <= n -> 2 ^ e <= round53 n.
Proof.
  intros He Hn. unfold round53.
  assert (0 < 2 ^ e) as Hpe by (apply Z.pow_pos_nonneg; lia).
  assert (0 < n) as Hpos by lia.
  assert (e <= Z.log2 n) as Hl by (apply Z.log2_le_pow2; lia).
  destruct (Z.leb_spec (Z.log2 n + 1) 53) as [Hb|Hb]; [lia |].
  set (sh := Z.log2 n + 1 - 53).
  assert (0 < sh) as Hsh by (unfold sh; lia).
  assert (0 < 2 ^ sh) as Hps by (apply Z.pow_pos_nonneg; lia).
  rewrite Z.shiftl_mul_pow2, Z.shiftr_div_pow2 by lia.
  pose proof (Z.log2_spec n Hpos) as [Hspec _].
  assert (2 ^ Z.log2 n = 2 ^ 52 * 2 ^ sh) as Hsplit.
  { rewrite <- Z.pow_add_r by lia. f_equal. unfold sh. lia. }
  assert (2 ^ 52 <= n / 2 ^ sh) as Hq.
  { apply Z.div_le_lower_bound; [lia |]. rewrite Z.mul_comm. lia. }
  assert (2 ^ e <= 2 ^ Z.log2 n) as Hmono by (apply Z.pow_le_mono_r; lia).
  match goal with |- _ <= (if ?b then _ else _) * _ => destruct b end; nia.
Qed.

(** X22: a file size that is a whole number [k] of gibibytes, for [k]
    below [2^23], gives the field value [k] followed by ".00" in every
    mapping that the extractor returns; and the extractor returns when the
    digits of the file size and those of the block size, if the text
    declares one, are no more than [int] converts. *)
Theorem whole_gibibytes_file_size c m (k : Z) :
  search file_size_re c = Some m ->
  int_of_digits (group m 1) = k * 2 ^ 30 ->
  0 <= k < 2 ^ 23 ->
  (forall params,
      parse_input_parameters c = Return params ->
      get "file_size_gb" params = Some (str_of_int k +:+ ".00"))
  /\ ((String.length (group m 1) <= max_str_digits)%nat ->
      (forall mb, search block_size_re c = Some mb ->
                  (String.length (group mb 1) <= max_str_digits)%nat) ->
      exists params, parse_input_parameters c = Return params).
Proof.
  intros Hm Hn Hk.
  assert (div_gib (int_of_digits (group m 1)) = Return (MkFloat (k * 2 ^ 30) 30))
    as D.
  { rewrite Hn. apply div_gib_exact.
    change (2 ^ 53) with (2 ^ 23 * 2 ^ 30). nia. }
  split.
  - intros params P.
    destruct (parse_input_parameters_get _ _ P) as (_ & _ & _ & _ & Gf & _).
    rewrite Hm in Gf. destruct Gf as (x & Dx & ->).
    rewrite D in Dx. apply PyFacts.Return_inj in Dx. subst x.
    f_equal. apply format_2f_whole. lia.
  - intros Hlen Hb. apply parse_input_parameters_returns; [exact Hb |].
    intros mf Hmf. rewrite Hm in Hmf. injection Hmf as <-. eauto.
Qed.

Lemma whole_gibibytes_file_size_witness :
  exists params,
    parse_input_parameters report = Return params
    /\ get "file_size_gb" params = Some "10.00".
Proof.
  destruct (whole_gibibytes_file_size report
              (MkMatch "size: 10737418240B" [(1%nat, "10737418240")]) 10
              ltac:(vm_compute; reflexivity) eq_refl ltac:(lia))
    as [Hget Hret].
  destruct Hret as [params P].
  - vm_compute. lia.
  - intros mb Hmb. vm_compute in Hmb. injection Hmb as <-. vm_compute. lia.
  - exists params. split; [exact P | exact (Hget params P)].
Defined.

Section Overflow.
Variable BASE_DIR : string.

(** X23: a declared file size of [2^1054] bytes or more is too large for
    the division: the extraction of that artifact raises, and the pass
    leaves the artifact out and goes on with the others. *)
Theorem huge_file_size_drops_artifact fs (f content : string) m
        (rest : list string) (all_results : list dict) :
  read_text fs (path_join (RESULTS_DIR BASE_DIR) f) = Return content ->
  search file_size_re content = Some m ->
  2 ^ 1054 <= int_of_digits (group m 1) ->
  (exists e, parse_result_file fs (path_join (RESULTS_DIR BASE_DIR) f)
               "benchmark-01" (node_id_of f) = Raise e)
  /\ process_node_files BASE_DIR fs (f :: rest) all_results
     = process_node_files BASE_DIR fs rest all_results.
Proof.
  intros R Hm Hn.
  assert (div_gib (int_of_digits (group m 1)) = Raise OverflowError) as D.
  { unfold div_gib.
    pose proof (round53_lower _ 1054 ltac:(lia) Hn) as Hr.
    apply Z.leb_le in Hr. now rewrite Hr. }
  assert (exists e, parse_input_parameters content = Raise e) as [e P].
  { destruct (parse_input_parameters content) as [params|e] eqn:P; [| eauto].
    destruct (parse_input_parameters_get _ _ P) as (_ & _ & _ & _ & Gf & _).
    rewrite Hm in Gf. destruct Gf as (x & Dx & _). congruence. }
  assert (parse_result_file fs (path_join (RESULTS_DIR BASE_DIR) f)
            "benchmark-01" (node_id_of f) = Raise e) as E.
  { unfold parse_result_file, bind. now rewrite R, P. }
  split; [eauto |].
  cbn [process_node_files]. fold (node_id_of f). now rewrite E.
Qed.
End Overflow.

Lemma huge_file_size_drops_artifact_witness :
  process_node_files "/opt/splitbench"
    (MkFs (fun _ => Return ["node-1.txt"]) (fun _ => Return huge_report))
    ["node-1.txt"] []
  = [].
Proof.
  apply (proj2 (huge_file_size_drops_artifact "/opt/splitbench"
           (MkFs (fun _ => Return ["node-1.txt"]) (fun _ => Return huge_report))
           "node-1.txt" huge_report
           (MkMatch huge_report [(1%nat, "1" +:+ zeros 320)]) [] []
           eq_refl
           ltac:(vm_compute; reflexivity)
           ltac:(apply Z.leb_le; vm_compute; reflexivity))).
Defined.
End SizeMore.
